(** * ArtiCast: the document linearization engine

    A shallow embedding of [src/ArtiCast.py] (the node classifier, the
    section linearizer [process_paper_section] and the assembling loop of
    [main]) together with the properties the specification states about
    them.

    Conventions of the model.
    - A Python [str] is a [string]; a character is a code point below 256.
    - [str | None] is [option string]; such a value is true in [if text:]
      when it is present and not the empty string.
    - An [xml.etree.ElementTree.Element] is a record with the fields the
      code reads: [tag], [attrib], [text], [tail] and the child list.
    - A raised exception is the [Raise] outcome of the [Exc] monad; the
      [assert] statements are enabled (the script is run by plain
      [python3], without [-O]). *)

From Stdlib Require Import Ascii NArith.
From stdpp Require Import gmap strings list.

Local Open Scope N_scope.

(** ** Python strings: [str.strip] *)

(** [str.isspace] on one character, for code points below 256: the ASCII
    white space 0x09-0x0D, 0x1C-0x1F and 0x20, then NEL (0x85) and the
    no-break space (0xA0). *)
Definition isspace (c : ascii) : bool :=
  let n := N_of_ascii c in
  ((9 <=? n) && (n <=? 13)) || ((28 <=? n) && (n <=? 32))
  || (n =? 133) || (n =? 160).

Local Close Scope N_scope.

Fixpoint lstrip (s : string) : string :=
  match s with
  | EmptyString => EmptyString
  | String c s' => if isspace c then lstrip s' else s
  end.

Fixpoint rstrip (s : string) : string :=
  match s with
  | EmptyString => EmptyString
  | String c s' =>
      match rstrip s' with
      | EmptyString => if isspace c then EmptyString else String c EmptyString
      | r => String c r
      end
  end.

(** [s.strip()]: white space removed at both ends. *)
Definition strip (s : string) : string := rstrip (lstrip s).

(** ** Exceptions *)

Inductive exn : Type :=
| AssertionError
| ValueError (msg : string).

Inductive Exc (A : Type) : Type :=
| Ok (a : A)
| Raise (e : exn).
Arguments Ok {A} a.
Arguments Raise {A} e.

Global Instance Exc_ret : MRet Exc := @Ok.
Global Instance Exc_bind : MBind Exc := λ A B f m,
  match m with
  | Ok a => f a
  | Raise e => Raise e
  end.
Global Instance Exc_fmap : FMap Exc := λ A B f m,
  match m with
  | Ok a => Ok (f a)
  | Raise e => Raise e
  end.

(** ** The element tree *)

Local Unset Elimination Schemes.
Inductive Element : Type :=
  mkElement {
    tag : string;
    attrib : gmap string string;
    text : option string;
    tail : option string;
    children : list Element
  }.
Local Set Elimination Schemes.

(** [Element.iter()]: the element itself, then the elements of each child's
    subtree, children taken in order (document order). *)
Fixpoint iter (e : Element) : list Element :=
  e :: flat_map iter (children e).

(** ** Node classifier *)

Definition TEI : string := "{http://www.tei-c.org/ns/1.0}".

Definition is_heading (element : Element) : bool :=
  bool_decide (tag element = "{http://www.tei-c.org/ns/1.0}head").

Definition is_paragraph (element : Element) : bool :=
  bool_decide (tag element = "{http://www.tei-c.org/ns/1.0}p").

Definition is_formula (element : Element) : bool :=
  bool_decide (tag element = "{http://www.tei-c.org/ns/1.0}formula").

Definition is_bib_reference (element : Element) : bool :=
  bool_decide (tag element = "{http://www.tei-c.org/ns/1.0}ref")
  && bool_decide (attrib element !! "type" = Some "bibr").

(** ** Section linearizer *)

(** One turn of the loop [for element in section.iter()], from the list
    [result] accumulated so far to the list after this element. *)
Definition step (element : Element) (result : list string)
  : Exc (list string) :=
  result ←
    (if is_heading element then
       match text element with
       | None => Raise AssertionError
       | Some t => Ok (result ++ ["[[HEADING: " +:+ strip t +:+ "]]"])
       end
     else if is_paragraph element then
       match text element, tail element with
       | None, None => Ok (result ++ [EmptyString])
       | _, _ => Raise AssertionError
       end
     else if is_formula element then
       match text element with
       | None => Raise AssertionError
       | Some t => Ok (result ++ ["[[FORMULA: " +:+ strip t +:+ "]]"])
       end
     else if is_bib_reference element then
       Ok result
     else
       match strip <$> text element with
       | Some (String c s) => Ok (result ++ [String c s])
       | _ => Ok result
       end);
  match strip <$> tail element with
  | Some (String c s) => Ok (result ++ [String c s])
  | _ => Ok result
  end.

(** The whole loop over the elements still to be visited. *)
Fixpoint for_loop (elements : list Element) (result : list string)
  : Exc (list string) :=
  match elements with
  | [] => Ok result
  | element :: rest => step element result ≫= for_loop rest
  end.

Definition process_paper_section (section : Element) : Exc (list string) :=
  if bool_decide (tag section = "{http://www.tei-c.org/ns/1.0}note") then
    Ok []
  else if bool_decide (tag section = "{http://www.tei-c.org/ns/1.0}figure") then
    Ok []
  else if bool_decide (tag section = "{http://www.tei-c.org/ns/1.0}div") then
    for_loop (iter section) []
  else
    Raise (ValueError ("Unexpected section tag: " +:+ tag section)).

(** ** Document assembler (the two loops of [main]) *)

(** [rough_sections]: every top-level section of the body is linearized
    first; an exception of any of them aborts the run. *)
Definition rough_sections (body_element : Element)
  : Exc (list (list string)) :=
  mapM process_paper_section (children body_element).

(** One turn of [for section in rough_sections]. *)
Definition join_step (rough_text section : list string) : list string :=
  (if bool_decide (rough_text = []) then rough_text
   else rough_text ++ [EmptyString]) ++ section.

Definition rough_text (sections : list (list string)) : list string :=
  foldl join_step [] sections.

Definition assemble (body_element : Element) : Exc (list string) :=
  rough_text <$> rough_sections body_element.

(** ** The linearizer over a mutable document

    The same code, written against a document store: the state of a run is
    the document tree, an element is a reference into it, and every
    attribute access ([element.tag], [element.text], [element.tail],
    [element.get], [section.iter()]) reads the store at the time it is
    executed. *)

Module Store.

(** A reference to a node: the child indices on the way from the root. *)
Definition ref : Type := list nat.

Fixpoint deref (d : Element) (r : ref) : option Element :=
  match r with
  | [] => Some d
  | i :: r' => c ← children d !! i; deref c r'
  end.

(** [replace d r f]: the document with the node at [r] replaced by its
    image under [f]; a reference to no node leaves the document as is. *)
Fixpoint replace (d : Element) (r : ref) (f : Element → Element) : Element :=
  match r with
  | [] => f d
  | i :: r' =>
      mkElement (tag d) (attrib d) (text d) (tail d)
        (alter (λ c, replace c r' f) i (children d))
  end.

(** A computation on the store: no outcome when it follows a reference to
    no node, else a value or an exception, and the store it leaves. *)
Definition Py (A : Type) : Type := Element → option (Exc A * Element).

Definition ret {A} (a : A) : Py A := λ d, Some (Ok a, d).

Definition bind {A B} (m : Py A) (f : A → Py B) : Py B := λ d,
  match m d with
  | Some (Ok a, d') => f a d'
  | Some (Raise e, d') => Some (Raise e, d')
  | None => None
  end.

Declare Scope py_scope.
Notation "x ← y ; z" := (bind y (λ x, z))
  (at level 20, y at level 100, z at level 200, only parsing) : py_scope.
Local Open Scope py_scope.

Definition raise {A} (e : exn) : Py A := λ d, Some (Raise e, d).

Definition read {A} (r : ref) (field : Element → A) : Py A := λ d,
  (λ e, (Ok (field e), d)) <$> deref d r.

Definition write (r : ref) (f : Element → Element) : Py () := λ d,
  (λ _, (Ok (), replace d r f)) <$> deref d r.

(** [element.text = v], the kind of statement the linearizer never
    executes. *)
Definition set_text (r : ref) (v : option string) : Py () :=
  write r (λ e, mkElement (tag e) (attrib e) v (tail e) (children e)).

(** References to the nodes of the subtree [e] that sits at [r], in the
    order of [iter]. *)
Definition refs_from (sub : Element → ref → list ref) (r : ref)
  : list Element → nat → list ref :=
  fix go (cs : list Element) (i : nat) : list ref :=
    match cs with
    | [] => []
    | c :: cs' => sub c (r ++ [i]) ++ go cs' (S i)
    end.

Fixpoint refs_of (e : Element) (r : ref) : list ref :=
  r :: refs_from refs_of r (children e) 0.

Definition iter (r : ref) : Py (list ref) := λ d,
  (λ e, (Ok (refs_of e r), d)) <$> deref d r.

Definition is_heading (element : ref) : Py bool :=
  t ← read element tag;
  ret (bool_decide (t = "{http://www.tei-c.org/ns/1.0}head")).

Definition is_paragraph (element : ref) : Py bool :=
  t ← read element tag;
  ret (bool_decide (t = "{http://www.tei-c.org/ns/1.0}p")).

Definition is_formula (element : ref) : Py bool :=
  t ← read element tag;
  ret (bool_decide (t = "{http://www.tei-c.org/ns/1.0}formula")).

Definition is_bib_reference (element : ref) : Py bool :=
  t ← read element tag;
  if bool_decide (t = "{http://www.tei-c.org/ns/1.0}ref") then
    ty ← read element (λ e, attrib e !! "type");
    ret (bool_decide (ty = Some "bibr"))
  else ret false.

Definition step (element : ref) (result : list string)
  : Py (list string) :=
  result ←
    (h ← is_heading element;
     if h then
       t ← read element text;
       match t with
       | None => raise AssertionError
       | Some t => ret (result ++ ["[[HEADING: " +:+ strip t +:+ "]]"])
       end
     else
       p ← is_paragraph element;
       if p then
         t ← read element text;
         match t with
         | Some _ => raise AssertionError
         | None =>
             tl ← read element tail;
             match tl with
             | Some _ => raise AssertionError
             | None => ret (result ++ [EmptyString])
             end
         end
       else
         f ← is_formula element;
         if f then
           t ← read element text;
           match t with
           | None => raise AssertionError
           | Some t => ret (result ++ ["[[FORMULA: " +:+ strip t +:+ "]]"])
           end
         else
           b ← is_bib_reference element;
           if b then ret result
           else
             t ← read element text;
             match strip <$> t with
             | Some (String c s) => ret (result ++ [String c s])
             | _ => ret result
             end) : Py (list string);
  tl ← read element tail;
  match strip <$> tl with
  | Some (String c s) => ret (result ++ [String c s])
  | _ => ret result
  end.

Fixpoint for_loop (elements : list ref) (result : list string)
  : Py (list string) :=
  match elements with
  | [] => ret result
  | element :: rest => r ← step element result; for_loop rest r
  end.

Definition process_paper_section (section : ref) : Py (list string) :=
  t ← read section tag;
  if bool_decide (t = "{http://www.tei-c.org/ns/1.0}note") then
    ret []
  else
    t ← read section tag;
    if bool_decide (t = "{http://www.tei-c.org/ns/1.0}figure") then
      ret []
    else
      t ← read section tag;
      if bool_decide (t = "{http://www.tei-c.org/ns/1.0}div") then
        elements ← iter section;
        for_loop elements []
      else
        t ← read section tag;
        raise (ValueError ("Unexpected section tag: " +:+ t)).

End Store.

(** ** Building documents *)

(** An element of the TEI namespace without attributes. *)
Definition tei (name : string) (text tail : option string)
    (children : list Element) : Element :=
  mkElement (TEI +:+ name) ∅ text tail children.

(** ** Vocabulary of the properties *)

(** The lines a text slot contributes when it is emitted as a fragment:
    the stripped text, unless that is empty or the slot is absent. *)
Definition fragment (slot : option string) : list string :=
  match strip <$> slot with
  | Some (String c s) => [String c s]
  | _ => []
  end.

(** The lines one visited element appends. *)
Definition emit (element : Element) : Exc (list string) := step element [].

(** The same element with its tail slot set to [v]. *)
Definition with_tail (v : option string) (e : Element) : Element :=
  mkElement (tag e) (attrib e) (text e) v (children e).

Definition leading_space (s : string) : bool :=
  match s with
  | EmptyString => false
  | String c _ => isspace c
  end.

Fixpoint trailing_space (s : string) : bool :=
  match s with
  | EmptyString => false
  | String c s' =>
      match s' with
      | EmptyString => isspace c
      | String _ _ => trailing_space s'
      end
  end.

(** The text of a subtree in the order in which it stands in the document,
    for a subtree of plain elements: the element's head text, then its
    children's subtrees, then the element's tail text. *)
Fixpoint document_order (e : Element) : list string :=
  fragment (text e) ++ flat_map document_order (children e)
  ++ fragment (tail e).

(** The number of empty lines of an output, and of paragraph-boundary
    elements of a traversal. *)
Definition blank_lines (lines : list string) : nat :=
  length (filter (λ l, l = EmptyString) lines).

Definition paragraphs (elements : list Element) : nat :=
  length (filter (λ e, is_paragraph e = true) elements).

(** A text slot that holds at least one character. *)
Definition nonempty_text (slot : option string) : Prop :=
  ∃ t, slot = Some t ∧ t ≠ EmptyString.

(** The slots the XML parser fills: [None] where the document has no
    character data, the data otherwise; never the empty string. *)
Definition parser_slot (slot : option string) : Prop :=
  slot ≠ Some EmptyString.

(** The assembling step in the words of the specification: a separator only
    when the text so far is non-empty and the section produced a line. *)
Definition spec_join_step (rough_text section : list string) : list string :=
  (if bool_decide (rough_text ≠ [] ∧ section ≠ []) then
     rough_text ++ [EmptyString]
   else rough_text) ++ section.

Definition spec_rough_text (sections : list (list string)) : list string :=
  foldl spec_join_step [] sections.

(** Two runs of the linearizer on the same section, the second in the store
    the first one left. *)
Definition run_twice (section : Store.ref) (d : Element)
  : option (Exc (list string) * Exc (list string) * Element) :=
  '(out1, d1) ← Store.process_paper_section section d;
  '(out2, d2) ← Store.process_paper_section section d1;
  Some (out1, out2, d2).

(** ** Documents used in the examples *)

(** [<div><head>Intro</head><p>Hello <formula>x=1</formula> world.</p></div>] *)
Definition intro_section : Element :=
  tei "div" None None
    [ tei "head" (Some "Intro") None [];
      tei "p" (Some "Hello ") None
        [ tei "formula" (Some "x=1") (Some " world.") [] ] ].

(** The same text with the paragraph's content inside a sentence element:
    [<div><head>Intro</head><p><s>Hello <formula>x=1</formula> world.</s></p></div>] *)
Definition intro_section_s : Element :=
  tei "div" None None
    [ tei "head" (Some "Intro") None [];
      tei "p" None None
        [ tei "s" (Some "Hello ") None
            [ tei "formula" (Some "x=1") (Some " world.") [] ] ] ].

Definition body_of (sections : list Element) : Element :=
  tei "body" None None sections.

(** [<div>A</div>], [<note>N</note>], [<div>B</div>] *)
Definition div_A : Element := tei "div" (Some "A") None [].
Definition div_B : Element := tei "div" (Some "B") None [].
Definition note_N : Element := tei "note" (Some "N") None [].

(** [<div><head> </head></div>]: a heading whose text is one space. *)
Definition blank_head : Element := tei "head" (Some " ") None [].
Definition blank_head_section : Element := tei "div" None None [blank_head].

(** [<div><formula>E = m c 2</formula></div>] *)
Definition emc2 : Element := tei "formula" (Some "E = m c 2") None [].
Definition emc2_section : Element := tei "div" None None [emc2].

(** [<div><p> </p></div>]: a paragraph whose own text is one space. *)
Definition blank_p : Element := tei "p" (Some " ") None [].
Definition blank_p_section : Element := tei "div" None None [blank_p].

(** [<div><p><s>One.</s></p></div>] *)
Definition plain_p : Element := tei "p" None None [tei "s" (Some "One.") None []].
Definition plain_p_section : Element := tei "div" None None [plain_p].

(** [<div>See <ref type="bibr">[4]</ref>, above.</div>] *)
Definition bibr_4 : Element :=
  mkElement (TEI +:+ "ref") {[ "type" := "bibr" ]} (Some "[4]")
    (Some ", above.") [].

(** [<div><note>A<hi>B</hi></note>C</div>]: a note inside a division. *)
Definition nested_note : Element :=
  tei "note" (Some "A") (Some "C") [tei "hi" (Some "B") None []].
Definition nested_note_section : Element := tei "div" None None [nested_note].

(** [<list>x</list>] at the top level of the body. *)
Definition list_section : Element := tei "list" (Some "x") None [].

(** ** The rest of [main]: from the parsed tree to the revised text *)

(** [element.findall(tag)] for a plain tag: the direct children of the
    element that carry the tag, in document order. *)
Definition findall (element : Element) (t : string) : list Element :=
  filter (λ c, tag c = t) (children element).

(** [(x,) = values]: unpacking a list into exactly one target.  The wording
    of the two messages differs between versions of Python; no property
    below depends on it. *)
Definition unpack1 {A} (values : list A) : Exc A :=
  match values with
  | [] => Raise (ValueError "not enough values to unpack (expected 1, got 0)")
  | [x] => Ok x
  | _ :: _ :: _ => Raise (ValueError "too many values to unpack (expected 1)")
  end.

(** Lines 148 to 159 of [main]: the one [text] child of the root, its one
    [body] child, then the assembling loops. *)
Definition main_rough_text (tree : Element) : Exc (list string) :=
  text_element ← unpack1 (findall tree "{http://www.tei-c.org/ns/1.0}text");
  body_element ←
    unpack1 (findall text_element "{http://www.tei-c.org/ns/1.0}body");
  assemble body_element.

(** The separator of [join] in [main]: one line feed. *)
Definition newline : string := String "010"%char EmptyString.

(** [sep.join(lines)] *)
Fixpoint join (sep : string) (lines : list string) : string :=
  match lines with
  | [] => EmptyString
  | l :: rest =>
      match rest with
      | [] => l
      | _ :: _ => l +:+ sep +:+ join sep rest
      end
  end.

(** The [contents] argument handed to the rewriting service. *)
Definition main_contents (tree : Element) : Exc string :=
  join newline <$> main_rough_text tree.

(** The fields of the response that [main] reads. *)
Module Gemini.

Record Part : Type := mkPart { text : option string }.
Record Content : Type := mkContent { parts : option (list Part) }.
Record Candidate : Type := mkCandidate { content : option Content }.
Record GenerateContentResponse : Type :=
  mkResponse { candidates : option (list Candidate) }.

End Gemini.

(** Lines 171 to 177 of [main]: the revised text of a response. *)
Definition revised_text (response : Gemini.GenerateContentResponse)
  : Exc string :=
  match Gemini.candidates response with
  | None => Raise AssertionError
  | Some cs =>
      candidate ← unpack1 cs;
      match Gemini.content candidate with
      | None => Raise AssertionError
      | Some c =>
          match Gemini.parts c with
          | None => Raise AssertionError
          | Some ps =>
              part ← unpack1 ps;
              match Gemini.text part with
              | None => Raise AssertionError
              | Some t => Ok (strip t)
              end
          end
      end
  end.

(** ** Vocabulary of the further properties *)

(** A string of white space only (the empty string included). *)
Fixpoint blank (s : string) : bool :=
  match s with
  | EmptyString => true
  | String c s' => isspace c && blank s'
  end.

(** The shape the loop of [process_paper_section] accepts on one element:
    a heading or formula has head text, a paragraph has neither head text
    nor tail text. *)
Definition shape_ok (e : Element) : bool :=
  if is_heading e then bool_decide (is_Some (text e))
  else if is_paragraph e then
    bool_decide (text e = None) && bool_decide (tail e = None)
  else if is_formula e then bool_decide (is_Some (text e))
  else true.

(** The sections of a body from the first one that has lines on. *)
Fixpoint drop_empty (sections : list (list string)) : list (list string) :=
  match sections with
  | [] => []
  | l :: rest => if bool_decide (l = []) then drop_empty rest else sections
  end.

(** * Properties *)

(** ** Induction on element trees *)

Lemma Element_ind (P : Element → Prop) :
  (∀ tg at_ tx tl cs, Forall P cs → P (mkElement tg at_ tx tl cs)) →
  ∀ e, P e.
Proof.
  intros IH. fix rec 1. intros [tg at_ tx tl cs]. apply IH.
  induction cs as [|c cs IHcs]; constructor; [apply rec | exact IHcs].
Qed.

(** ** [strip] *)

Lemma lstrip_leading s : leading_space (lstrip s) = false.
Proof.
  induction s as [|c s IH]; simpl; [done|].
  destruct (isspace c) eqn:Hc; simpl; [done | by rewrite Hc].
Qed.

Lemma rstrip_trailing s : trailing_space (rstrip s) = false.
Proof.
  induction s as [|c s IH]; simpl; [done|].
  destruct (rstrip s) as [|c' r] eqn:Hr.
  - destruct (isspace c) eqn:Hc; simpl; [done | by rewrite Hc].
  - exact IH.
Qed.

Lemma rstrip_leading s : leading_space s = false → leading_space (rstrip s) = false.
Proof.
  destruct s as [|c s]; simpl; [done|]. intros Hc.
  destruct (rstrip s); [by rewrite Hc | done].
Qed.

Lemma lstrip_id s : leading_space s = false → lstrip s = s.
Proof. destruct s as [|c s]; simpl; [done|]. by intros ->. Qed.

Lemma rstrip_id s : trailing_space s = false → rstrip s = s.
Proof.
  induction s as [|c s IH]; simpl; [done|].
  destruct s as [|c' s'].
  - simpl. by intros ->.
  - intros H. rewrite (IH H). done.
Qed.

Lemma strip_leading s : leading_space (strip s) = false.
Proof. apply rstrip_leading, lstrip_leading. Qed.

Lemma strip_trailing s : trailing_space (strip s) = false.
Proof. apply rstrip_trailing. Qed.

Lemma strip_id s :
  leading_space s = false → trailing_space s = false → strip s = s.
Proof. intros Hl Ht. unfold strip. by rewrite (lstrip_id _ Hl), (rstrip_id _ Ht). Qed.

Lemma strip_strip s : strip (strip s) = strip s.
Proof. apply strip_id; [apply strip_leading | apply strip_trailing]. Qed.

Lemma trailing_space_app a b :
  b ≠ EmptyString → trailing_space (a +:+ b) = trailing_space b.
Proof.
  intros Hb. induction a as [|c a IH]; simpl; [done|].
  destruct (a +:+ b) as [|c' r] eqn:Hab; [|exact IH].
  destruct a; simpl in Hab; [done | discriminate].
Qed.

Lemma fragment_stripped slot l : l ∈ fragment slot → l ≠ EmptyString ∧ strip l = l.
Proof.
  unfold fragment. destruct slot as [t|]; simpl; [|by intros ?%elem_of_nil].
  destruct (strip t) as [|c s] eqn:Ht; [by intros ?%elem_of_nil|].
  intros ->%list_elem_of_singleton. split; [done|].
  rewrite <- Ht. apply strip_strip.
Qed.

(** ** One turn of the loop *)

Lemma fragment_step (result : list string) slot :
  match strip <$> slot with
  | Some (String c s) => Ok (result ++ [String c s])
  | _ => Ok result
  end = Ok (result ++ fragment slot).
Proof.
  unfold fragment. destruct (strip <$> slot) as [[|c s]|];
    by rewrite ?app_nil_r.
Qed.

Lemma is_paragraph_not_heading e : is_paragraph e = true → is_heading e = false.
Proof.
  unfold is_paragraph, is_heading. intros Hp%bool_decide_eq_true.
  rewrite Hp. done.
Qed.

Lemma is_formula_not_heading e : is_formula e = true → is_heading e = false.
Proof.
  unfold is_formula, is_heading. intros Hp%bool_decide_eq_true.
  rewrite Hp. done.
Qed.

Lemma is_formula_not_paragraph e : is_formula e = true → is_paragraph e = false.
Proof.
  unfold is_formula, is_paragraph. intros Hp%bool_decide_eq_true.
  rewrite Hp. done.
Qed.

Lemma is_bib_reference_other e :
  is_bib_reference e = true →
  is_heading e = false ∧ is_paragraph e = false ∧ is_formula e = false.
Proof.
  unfold is_bib_reference, is_heading, is_paragraph, is_formula.
  intros [Hp%bool_decide_eq_true _]%andb_true_iff. rewrite Hp. done.
Qed.

Lemma step_heading e result :
  is_heading e = true →
  step e result =
    match text e with
    | None => Raise AssertionError
    | Some t =>
        Ok (result ++ ["[[HEADING: " +:+ strip t +:+ "]]"] ++ fragment (tail e))
    end.
Proof.
  intros H. unfold step. rewrite H. destruct (text e); simpl; [|done].
  by rewrite fragment_step, <- app_assoc.
Qed.

Lemma step_paragraph e result :
  is_paragraph e = true →
  step e result =
    match text e, tail e with
    | None, None => Ok (result ++ [EmptyString])
    | _, _ => Raise AssertionError
    end.
Proof.
  intros H. unfold step. rewrite (is_paragraph_not_heading _ H), H.
  destruct (text e), (tail e) as [tl|] eqn:Htl; simpl; try done.
Qed.

Lemma step_formula e result :
  is_formula e = true →
  step e result =
    match text e with
    | None => Raise AssertionError
    | Some t =>
        Ok (result ++ ["[[FORMULA: " +:+ strip t +:+ "]]"] ++ fragment (tail e))
    end.
Proof.
  intros H. unfold step.
  rewrite (is_formula_not_heading _ H), (is_formula_not_paragraph _ H), H.
  destruct (text e); simpl; [|done].
  by rewrite fragment_step, <- app_assoc.
Qed.

Lemma step_bib_reference e result :
  is_bib_reference e = true →
  step e result = Ok (result ++ fragment (tail e)).
Proof.
  intros H. unfold step.
  destruct (is_bib_reference_other _ H) as (-> & -> & ->). rewrite H.
  simpl. apply fragment_step.
Qed.

Lemma step_other e result :
  is_heading e = false → is_paragraph e = false → is_formula e = false →
  is_bib_reference e = false →
  step e result = Ok (result ++ fragment (text e) ++ fragment (tail e)).
Proof.
  intros Hh Hp Hf Hb. unfold step. rewrite Hh, Hp, Hf, Hb.
  rewrite fragment_step. simpl. by rewrite fragment_step, <- app_assoc.
Qed.

(** Case analysis on the branch of the [if]/[elif] chain taken by [e]. *)
Ltac by_role e :=
  let Hh := fresh "Hh" in let Hp := fresh "Hp" in
  let Hf := fresh "Hf" in let Hb := fresh "Hb" in
  destruct (is_heading e) eqn:Hh;
    [ rewrite (step_heading e) by exact Hh
    | destruct (is_paragraph e) eqn:Hp;
      [ rewrite (step_paragraph e) by exact Hp
      | destruct (is_formula e) eqn:Hf;
        [ rewrite (step_formula e) by exact Hf
        | destruct (is_bib_reference e) eqn:Hb;
          [ rewrite (step_bib_reference e) by exact Hb
          | rewrite (step_other e) by assumption ] ] ] ].

Lemma step_emit e result : step e result = (result ++.) <$> emit e.
Proof.
  unfold emit. by_role e; try by_role e; try done.
  - by destruct (text e).
  - by destruct (text e), (tail e).
  - by destruct (text e).
Qed.

Lemma step_AssertionError e result x : step e result = Raise x → x = AssertionError.
Proof.
  by_role e; try done.
  - destruct (text e); [done|]. by intros [= <-].
  - destruct (text e), (tail e); try done; by intros [= <-].
  - destruct (text e); [done|]. by intros [= <-].
Qed.

(** ** The loop *)

Lemma for_loop_app es1 es2 result :
  for_loop (es1 ++ es2) result = for_loop es1 result ≫= for_loop es2.
Proof.
  revert result. induction es1 as [|e es1 IH]; intros result; simpl; [done|].
  destruct (step e result) as [r|x]; simpl; [apply IH | done].
Qed.

Lemma for_loop_result es result :
  for_loop es result = (result ++.) <$> for_loop es [].
Proof.
  revert result. induction es as [|e es IH]; intros result; simpl.
  - by rewrite app_nil_r.
  - rewrite (step_emit e result), (step_emit e []).
    destruct (emit e) as [new|x]; simpl; [|done].
    rewrite (IH (result ++ new)), (IH new).
    destruct (for_loop es []) as [more|x]; simpl; [|done].
    by rewrite app_assoc.
Qed.

Lemma for_loop_AssertionError es result x :
  for_loop es result = Raise x → x = AssertionError.
Proof.
  revert result. induction es as [|e es IH]; intros result; simpl; [done|].
  destruct (step e result) as [r|y] eqn:Hs; simpl.
  - apply IH.
  - intros [= <-]. by eapply step_AssertionError.
Qed.

(** An element that violates the shape makes the whole loop fail, wherever
    it stands in the traversal. *)
Lemma for_loop_raise es result e :
  e ∈ es → emit e = Raise AssertionError →
  for_loop es result = Raise AssertionError.
Proof.
  intros Hin He. revert result.
  induction es as [|e' es IH]; intros result; [by apply elem_of_nil in Hin|].
  simpl. destruct (step e' result) as [r|x] eqn:Hs; simpl.
  - apply elem_of_cons in Hin as [->|Hin]; [|by apply IH].
    rewrite step_emit, He in Hs. done.
  - f_equal. by eapply step_AssertionError.
Qed.

Lemma for_loop_mapM es : for_loop es [] = mjoin <$> mapM emit es.
Proof.
  induction es as [|e es IH]; simpl; [done|].
  rewrite (step_emit e []). destruct (emit e) as [new|x]; simpl; [|done].
  rewrite for_loop_result, IH.
  by destruct (mapM emit es).
Qed.

(** ** The end-to-end example *)

(** C1, as stated: the example section is not linearized to the five lines
    of the claim. *)
Lemma claimed_intro_lines_not_produced :
  process_paper_section intro_section ≠
    Ok ["[[HEADING: Intro]]"; EmptyString; "Hello "; "[[FORMULA: x=1]]";
        " world."]
  ∧ assemble (body_of [intro_section]) ≠
    Ok ["[[HEADING: Intro]]"; EmptyString; "Hello "; "[[FORMULA: x=1]]";
        " world."].
Proof. split; vm_compute; discriminate. Qed.

(** C1, amended: on the example section the linearizer raises the assertion
    error of the paragraph rule, because [<p>] carries the text "Hello " of
    its own, and so does the assembler on the body that holds it; with the
    paragraph's content inside a sentence element the run succeeds and the
    lines are the stripped fragments. *)
Theorem intro_example :
  process_paper_section intro_section = Raise AssertionError
  ∧ assemble (body_of [intro_section]) = Raise AssertionError
  ∧ assemble (body_of [intro_section_s]) =
      Ok ["[[HEADING: Intro]]"; EmptyString; "Hello"; "[[FORMULA: x=1]]";
          "world."].
Proof. repeat split; vm_compute; reflexivity. Qed.

(** ** The assembler *)

Lemma rough_text_snoc sections section :
  rough_text (sections ++ [section]) =
    if bool_decide (rough_text sections = []) then section
    else rough_text sections ++ EmptyString :: section.
Proof.
  unfold rough_text. rewrite foldl_snoc. unfold join_step at 1.
  case_bool_decide as H; [by rewrite H | by rewrite <- app_assoc].
Qed.

Lemma foldl_join_step acc sections :
  acc ≠ [] →
  foldl join_step acc sections = acc ++ flat_map (EmptyString ::.) sections.
Proof.
  revert acc. induction sections as [|l sections IH]; intros acc Hacc; simpl.
  - by rewrite app_nil_r.
  - unfold join_step at 2. rewrite bool_decide_eq_false_2 by done.
    rewrite IH by (by destruct acc). by rewrite <- !app_assoc.
Qed.

(** Sections without lines at the start of the body are dropped; from the
    first section with lines on, every later section is preceded by one
    separator line. *)
Lemma rough_text_cons l sections :
  rough_text (l :: sections) =
    if bool_decide (l = []) then rough_text sections
    else l ++ flat_map (EmptyString ::.) sections.
Proof.
  unfold rough_text. simpl. unfold join_step at 2. simpl.
  case_bool_decide as H; [by rewrite H | by apply foldl_join_step].
Qed.

Lemma assemble_sections body sections :
  mapM process_paper_section (children body) = Ok sections →
  assemble body = Ok (rough_text sections).
Proof. unfold assemble, rough_sections. by intros ->. Qed.

(** C2, as stated: with a note between two divisions the assembler does not
    produce what the rule of the claim produces; it emits two separators. *)
Lemma note_between_divs_two_separators :
  assemble (body_of [div_A; note_N; div_B]) =
    Ok ["A"; EmptyString; EmptyString; "B"]
  ∧ spec_rough_text <$> rough_sections (body_of [div_A; note_N; div_B]) =
    Ok ["A"; EmptyString; "B"]
  ∧ assemble (body_of [div_A; note_N; div_B]) ≠
    spec_rough_text <$> rough_sections (body_of [div_A; note_N; div_B]).
Proof.
  split; [vm_compute; reflexivity|].
  split; [vm_compute; reflexivity | vm_compute; discriminate].
Qed.

(** C2, amended: the assembler inserts one empty separator line before a
    section's lines exactly when the text accumulated so far is non-empty,
    whether or not the section produced a line.  Two consecutive non-empty
    sections are separated by exactly one empty line; a section without
    lines between them (a note) adds a separator of its own. *)
Theorem separator_rule :
  (∀ sections section,
     rough_text (sections ++ [section]) =
       if bool_decide (rough_text sections = []) then section
       else rough_text sections ++ EmptyString :: section)
  ∧ (∀ body d1 d2 l1 l2,
       children body = [d1; d2] →
       process_paper_section d1 = Ok l1 → process_paper_section d2 = Ok l2 →
       l1 ≠ [] →
       assemble body = Ok (l1 ++ EmptyString :: l2))
  ∧ (∀ body d1 n d2 l1 l2,
       children body = [d1; n; d2] →
       tag n = "{http://www.tei-c.org/ns/1.0}note" →
       process_paper_section d1 = Ok l1 → process_paper_section d2 = Ok l2 →
       l1 ≠ [] →
       assemble body = Ok (l1 ++ EmptyString :: EmptyString :: l2)).
Proof.
  split; [exact rough_text_snoc|]. split.
  - intros body d1 d2 l1 l2 Hc H1 H2 Hne.
    rewrite (assemble_sections body [l1; l2]).
    + rewrite rough_text_cons, bool_decide_eq_false_2 by done.
      simpl. by rewrite ?app_nil_r.
    + rewrite Hc. simpl. by rewrite H1, H2.
  - intros body d1 n d2 l1 l2 Hc Hn H1 H2 Hne.
    assert (process_paper_section n = Ok []) as H0.
    { unfold process_paper_section. by rewrite Hn. }
    rewrite (assemble_sections body [l1; []; l2]).
    + rewrite rough_text_cons, bool_decide_eq_false_2 by done.
      simpl. by rewrite ?app_nil_r.
    + rewrite Hc. simpl. by rewrite H1, H0, H2.
Qed.

Lemma separator_rule_witness :
  assemble (body_of [div_A; div_B]) = Ok (["A"] ++ EmptyString :: ["B"])
  ∧ assemble (body_of [div_A; note_N; div_B]) =
      Ok (["A"] ++ EmptyString :: EmptyString :: ["B"]).
Proof.
  destruct separator_rule as (_ & H2 & H3). split.
  - apply (H2 (body_of [div_A; div_B]) div_A div_B ["A"] ["B"]);
      [reflexivity | vm_compute; reflexivity | vm_compute; reflexivity
      | discriminate].
  - apply (H3 (body_of [div_A; note_N; div_B]) div_A note_N div_B ["A"] ["B"]);
      [reflexivity | reflexivity | vm_compute; reflexivity
      | vm_compute; reflexivity | discriminate].
Defined.

(** ** Failure of a division *)

Lemma process_div section :
  tag section = "{http://www.tei-c.org/ns/1.0}div" →
  process_paper_section section = for_loop (iter section) [].
Proof. intros H. unfold process_paper_section. by rewrite H. Qed.

(** A violation on any visited element is fatal for the section. *)
Lemma process_div_raise section e :
  tag section = "{http://www.tei-c.org/ns/1.0}div" →
  e ∈ iter section → emit e = Raise AssertionError →
  process_paper_section section = Raise AssertionError.
Proof.
  intros Hdiv Hin He. rewrite (process_div _ Hdiv).
  by apply (for_loop_raise _ _ e).
Qed.

(** ** Headings and formulas *)

(** C3, as stated: a heading whose text is one space has no stripped head
    text, yet it is accepted, and a placeholder without title is emitted. *)
Lemma blank_heading_accepted :
  is_heading blank_head = true
  ∧ strip <$> text blank_head = Some EmptyString
  ∧ emit blank_head = Ok ["[[HEADING: ]]"]
  ∧ process_paper_section blank_head_section = Ok ["[[HEADING: ]]"].
Proof. repeat split; vm_compute; reflexivity. Qed.

(** C3, amended: for a heading or formula element visited in a division the
    linearizer requires the head text to be present (its absence is a fatal
    assertion error for the section) and then emits exactly one line
    [[[HEADING: <stripped head text>]]], respectively
    [[[FORMULA: <stripped head text>]]], where the stripped text may be
    empty; the element's tail fragment follows.  The formula
    [<formula>E = m c 2</formula>] emits exactly [[[FORMULA: E = m c 2]]]. *)
Theorem heading_formula_rule :
  (∀ e result,
     is_heading e = true →
     (text e = None → step e result = Raise AssertionError)
     ∧ (∀ t, text e = Some t →
          step e result =
            Ok (result ++ ["[[HEADING: " +:+ strip t +:+ "]]"]
                ++ fragment (tail e))))
  ∧ (∀ e result,
       is_formula e = true →
       (text e = None → step e result = Raise AssertionError)
       ∧ (∀ t, text e = Some t →
            step e result =
              Ok (result ++ ["[[FORMULA: " +:+ strip t +:+ "]]"]
                  ++ fragment (tail e))))
  ∧ (∀ section e,
       tag section = "{http://www.tei-c.org/ns/1.0}div" →
       e ∈ iter section →
       is_heading e = true ∨ is_formula e = true →
       text e = None →
       process_paper_section section = Raise AssertionError)
  ∧ process_paper_section emc2_section = Ok ["[[FORMULA: E = m c 2]]"].
Proof.
  split; [|split; [|split]].
  - intros e result H. rewrite (step_heading _ _ H).
    split; [by intros -> | by intros t ->].
  - intros e result H. rewrite (step_formula _ _ H).
    split; [by intros -> | by intros t ->].
  - intros section e Hdiv Hin Hrole Htext.
    apply (process_div_raise _ e Hdiv Hin). unfold emit.
    destruct Hrole as [H|H].
    + by rewrite (step_heading _ _ H), Htext.
    + by rewrite (step_formula _ _ H), Htext.
  - vm_compute. reflexivity.
Qed.

Lemma heading_formula_rule_witness :
  step (tei "head" (Some "IV. Data Analysis") None []) [] =
    Ok ["[[HEADING: IV. Data Analysis]]"]
  ∧ step emc2 [] = Ok ["[[FORMULA: E = m c 2]]"]
  ∧ process_paper_section (tei "div" None None [tei "head" None None []]) =
      Raise AssertionError.
Proof.
  destruct heading_formula_rule as (Hh & Hf & Hs & _). split; [|split].
  - destruct (Hh (tei "head" (Some "IV. Data Analysis") None []) [])
      as [_ H]; [reflexivity|].
    apply (H "IV. Data Analysis"). reflexivity.
  - destruct (Hf emc2 []) as [_ H]; [reflexivity|].
    apply (H "E = m c 2"). reflexivity.
  - apply (Hs _ (tei "head" None None []));
      [reflexivity | | left; reflexivity | reflexivity].
    simpl. apply elem_of_cons. right. apply elem_of_cons. by left.
Defined.

(** ** Paragraph boundaries *)

Lemma nonempty_text_Some slot : nonempty_text slot → is_Some slot.
Proof. intros (t & -> & _). by eexists. Qed.

Lemma paragraph_raise e result :
  is_paragraph e = true → is_Some (text e) ∨ is_Some (tail e) →
  step e result = Raise AssertionError.
Proof.
  intros Hp H. rewrite (step_paragraph _ _ Hp).
  destruct H as [[t ->]|[t ->]]; [done | by destruct (text e)].
Qed.

(** C4: a paragraph-boundary element with non-empty head text or tail text
    of its own makes the linearization of the division fail with an
    assertion error; otherwise (slots as the XML parser fills them) exactly
    one empty line is appended for it and the traversal goes on with the
    subtrees of its children, in order. *)
Theorem paragraph_boundary_rule (e : Element) (result : list string) :
  is_paragraph e = true →
  (nonempty_text (text e) ∨ nonempty_text (tail e) →
     step e result = Raise AssertionError
     ∧ ∀ section,
         tag section = "{http://www.tei-c.org/ns/1.0}div" →
         e ∈ iter section →
         process_paper_section section = Raise AssertionError)
  ∧ (parser_slot (text e) → parser_slot (tail e) →
     ¬ (nonempty_text (text e) ∨ nonempty_text (tail e)) →
     step e result = Ok (result ++ [EmptyString])
     ∧ for_loop (iter e) result =
         for_loop (flat_map iter (children e)) (result ++ [EmptyString])).
Proof.
  intros Hp. split.
  - intros H.
    assert (is_Some (text e) ∨ is_Some (tail e)) as H'.
    { destruct H as [H|H]; [left | right]; by apply nonempty_text_Some. }
    split; [by apply paragraph_raise|].
    intros section Hdiv Hin. apply (process_div_raise _ e Hdiv Hin).
    by apply paragraph_raise.
  - intros Htext Htail Hno.
    assert (text e = None) as Ht.
    { destruct (text e) as [t|] eqn:E; [|done]. exfalso. apply Hno. left.
      exists t. split; [done|]. intros ->. by apply Htext. }
    assert (tail e = None) as Hl.
    { destruct (tail e) as [t|] eqn:E; [|done]. exfalso. apply Hno. right.
      exists t. split; [done|]. intros ->. by apply Htail. }
    assert (step e result = Ok (result ++ [EmptyString])) as Hs.
    { by rewrite (step_paragraph _ _ Hp), Ht, Hl. }
    split; [exact Hs|].
    destruct e as [tg at_ tx tl cs]. simpl in *. by rewrite Hs.
Qed.

Lemma paragraph_boundary_rule_witness :
  process_paper_section intro_section = Raise AssertionError
  ∧ step plain_p [] = Ok [EmptyString]
  ∧ for_loop (iter plain_p) [] =
      for_loop (flat_map iter (children plain_p)) [EmptyString].
Proof.
  split.
  - destruct (paragraph_boundary_rule
                (tei "p" (Some "Hello ") None
                   [tei "formula" (Some "x=1") (Some " world.") []]) [])
      as [H _]; [reflexivity|].
    destruct H as [_ H].
    + left. exists "Hello ". split; [reflexivity | discriminate].
    + apply H; [reflexivity|]. simpl.
      do 2 (apply elem_of_cons; right). apply elem_of_cons. by left.
  - destruct (paragraph_boundary_rule plain_p []) as [_ H]; [reflexivity|].
    apply H.
    + discriminate.
    + discriminate.
    + intros [(t & Ht & _)|(t & Ht & _)]; discriminate Ht.
Defined.

(** C10: a paragraph-boundary element passes exactly when both its
    head-text and its tail-text slot are absent; a slot that is present,
    whatever it holds (white space only included, as in [<p> </p>]), raises
    the assertion error and makes the linearization of the division
    fail. *)
Theorem paragraph_slots_absent (e : Element) (result : list string) :
  is_paragraph e = true →
  ((∃ out, step e result = Ok out) ↔ text e = None ∧ tail e = None)
  ∧ (∀ t, text e = Some t ∨ tail e = Some t →
       step e result = Raise AssertionError
       ∧ ∀ section,
           tag section = "{http://www.tei-c.org/ns/1.0}div" →
           e ∈ iter section →
           process_paper_section section = Raise AssertionError).
Proof.
  intros Hp. split.
  - rewrite (step_paragraph _ _ Hp). split.
    + intros [out H]. by destruct (text e), (tail e).
    + intros [-> ->]. by eexists.
  - intros t H.
    assert (is_Some (text e) ∨ is_Some (tail e)) as H'.
    { destruct H as [H|H]; rewrite H; [left | right]; by eexists. }
    split; [by apply paragraph_raise|].
    intros section Hdiv Hin. apply (process_div_raise _ e Hdiv Hin).
    by apply paragraph_raise.
Qed.

Lemma paragraph_slots_absent_witness :
  step blank_p [] = Raise AssertionError
  ∧ process_paper_section blank_p_section = Raise AssertionError.
Proof.
  destruct (paragraph_slots_absent blank_p []) as [_ H]; [reflexivity|].
  destruct (H " ") as [H1 H2]; [left; reflexivity |].
  split; [exact H1|]. apply H2; [reflexivity|]. simpl.
  apply elem_of_cons; right. apply elem_of_cons. by left.
Defined.

(** ** Tail text and bibliographic references *)

Lemma fragment_Some t :
  fragment (Some t) =
    if bool_decide (strip t = EmptyString) then [] else [strip t].
Proof. unfold fragment. simpl. by destruct (strip t). Qed.

(** C5: a bibliographic reference contributes no line for its head text,
    only its tail fragment: the stripped tail text as one line when that is
    non-empty.  For every element, whatever its role, the lines of a
    successful turn are those of the head-text handling (the turn on the
    element without tail) followed by the tail fragment. *)
Theorem tail_after_head (e : Element) (result : list string) :
  (is_bib_reference e = true → step e result = Ok (result ++ fragment (tail e)))
  ∧ (∀ out, step e result = Ok out →
       ∃ head, step (with_tail None e) result = Ok (result ++ head)
               ∧ out = result ++ head ++ fragment (tail e))
  ∧ fragment None = []
  ∧ (∀ t, fragment (Some t) =
            if bool_decide (strip t = EmptyString) then [] else [strip t]).
Proof.
  split; [apply step_bib_reference|]. split; [|split; [done|apply fragment_Some]].
  intros out.
  destruct (is_heading e) eqn:Hh;
    [|destruct (is_paragraph e) eqn:Hp;
      [|destruct (is_formula e) eqn:Hf;
        [|destruct (is_bib_reference e) eqn:Hb]]].
  - rewrite (step_heading e), (step_heading (with_tail None e)) by done.
    simpl. destruct (text e) as [t|]; [|done]. intros [= <-].
    by eexists.
  - rewrite (step_paragraph e), (step_paragraph (with_tail None e)) by done.
    simpl. destruct (text e) as [t|], (tail e) as [tl|]; try done.
    intros [= <-]. exists [EmptyString]. by rewrite ?app_nil_r.
  - rewrite (step_formula e), (step_formula (with_tail None e)) by done.
    simpl. destruct (text e) as [t|]; [|done]. intros [= <-].
    by eexists.
  - rewrite (step_bib_reference e), (step_bib_reference (with_tail None e))
      by done.
    simpl. intros [= <-]. by exists [].
  - rewrite (step_other e), (step_other (with_tail None e)) by done.
    simpl. intros [= <-]. exists (fragment (text e)).
    by rewrite ?app_nil_r.
Qed.

Lemma tail_after_head_witness :
  step bibr_4 ["See"] = Ok (["See"] ++ fragment (tail bibr_4))
  ∧ ∃ head, step (with_tail None bibr_4) ["See"] = Ok (["See"] ++ head)
            ∧ ["See"; ", above."] = ["See"] ++ head ++ fragment (tail bibr_4).
Proof.
  destruct (tail_after_head bibr_4 ["See"]) as (H1 & H2 & _).
  split; [apply H1; reflexivity|].
  apply H2. vm_compute. reflexivity.
Defined.

(** ** Dispatch on the section tag *)

(** C6: a note or figure section yields no line, whatever its subtree holds;
    a division is traversed, its lines being those of the elements of
    [iter], each visited once and in order; any other tag raises the error
    "Unexpected section tag". *)
Theorem section_dispatch (section : Element) :
  (tag section = "{http://www.tei-c.org/ns/1.0}note"
   ∨ tag section = "{http://www.tei-c.org/ns/1.0}figure" →
   process_paper_section section = Ok [])
  ∧ (tag section = "{http://www.tei-c.org/ns/1.0}div" →
     process_paper_section section = mjoin <$> mapM emit (iter section))
  ∧ (tag section ≠ "{http://www.tei-c.org/ns/1.0}note" →
     tag section ≠ "{http://www.tei-c.org/ns/1.0}figure" →
     tag section ≠ "{http://www.tei-c.org/ns/1.0}div" →
     process_paper_section section =
       Raise (ValueError ("Unexpected section tag: " +:+ tag section))).
Proof.
  unfold process_paper_section. split; [|split].
  - intros [->| ->]; done.
  - intros ->. simpl. apply for_loop_mapM.
  - intros H1 H2 H3. by rewrite !bool_decide_eq_false_2.
Qed.

Lemma section_dispatch_witness :
  process_paper_section (tei "note" None None [blank_p]) = Ok []
  ∧ process_paper_section (tei "figure" None None [blank_p]) = Ok []
  ∧ process_paper_section plain_p_section =
      mjoin <$> mapM emit (iter plain_p_section)
  ∧ process_paper_section list_section =
      Raise (ValueError
               "Unexpected section tag: {http://www.tei-c.org/ns/1.0}list").
Proof.
  split; [|split; [|split]].
  - apply (section_dispatch (tei "note" None None [blank_p])).
    left. reflexivity.
  - apply (section_dispatch (tei "figure" None None [blank_p])).
    right. reflexivity.
  - apply (section_dispatch plain_p_section). reflexivity.
  - apply (section_dispatch list_section); discriminate.
Defined.

(** ** White space of the emitted lines *)

Lemma placeholder_stripped (opening : string) t :
  leading_space opening = false → opening ≠ EmptyString →
  strip (opening +:+ strip t +:+ "]]") = opening +:+ strip t +:+ "]]".
Proof.
  intros Hl Hne. apply strip_id.
  - destruct opening; [done | exact Hl].
  - rewrite trailing_space_app; [|by destruct (strip t)].
    by rewrite trailing_space_app.
Qed.

Lemma fragment_lines slot :
  Forall (λ l, strip l = l) (fragment slot) ∧ blank_lines (fragment slot) = 0.
Proof.
  unfold fragment, blank_lines. destruct (strip <$> slot) as [[|c s]|] eqn:E;
    try done.
  split; [|done]. constructor; [|done].
  destruct slot as [t|]; [|done]. injection E as E. rewrite <- E.
  apply strip_strip.
Qed.

Lemma blank_lines_app l1 l2 :
  blank_lines (l1 ++ l2) = blank_lines l1 + blank_lines l2.
Proof. unfold blank_lines. by rewrite filter_app, length_app. Qed.

Lemma blank_lines_placeholder c (opening rest : string) more :
  blank_lines more = 0 →
  blank_lines ([String c opening +:+ rest] ++ more) = 0.
Proof.
  intros H. rewrite blank_lines_app, H. unfold blank_lines.
  by rewrite filter_cons, decide_False.
Qed.

Lemma is_heading_not_paragraph e : is_heading e = true → is_paragraph e = false.
Proof.
  intros H. destruct (is_paragraph e) eqn:Hp; [|done].
  by rewrite (is_paragraph_not_heading _ Hp) in H.
Qed.

Lemma emit_lines e new :
  emit e = Ok new →
  Forall (λ l, strip l = l) new
  ∧ blank_lines new = if is_paragraph e then 1 else 0.
Proof.
  destruct (fragment_lines (text e)) as [Ftext Btext].
  destruct (fragment_lines (tail e)) as [Ftail Btail].
  unfold emit.
  destruct (is_heading e) eqn:Hh;
    [|destruct (is_paragraph e) eqn:Hp;
      [|destruct (is_formula e) eqn:Hf;
        [|destruct (is_bib_reference e) eqn:Hb]]].
  - rewrite (step_heading e), (is_heading_not_paragraph e) by done.
    destruct (text e) as [t|]; [|done]. intros [= <-]. split.
    + constructor; [|done]. by apply placeholder_stripped.
    + by apply blank_lines_placeholder.
  - rewrite (step_paragraph e) by done.
    destruct (text e), (tail e); try done. intros [= <-].
    split; [|done]. by constructor.
  - rewrite (step_formula e) by done.
    destruct (text e) as [t|]; [|done]. intros [= <-]. split.
    + constructor; [|done]. by apply placeholder_stripped.
    + by apply blank_lines_placeholder.
  - rewrite (step_bib_reference e) by done. by intros [= <-].
  - rewrite (step_other e) by done. intros [= <-]. simpl. split.
    + by apply Forall_app.
    + by rewrite blank_lines_app, Btext, Btail.
Qed.

Lemma for_loop_lines es lines :
  for_loop es [] = Ok lines →
  Forall (λ l, strip l = l) lines ∧ blank_lines lines = paragraphs es.
Proof.
  revert lines. induction es as [|e es IH]; intros lines; simpl.
  - by intros [= <-].
  - rewrite (step_emit e []). destruct (emit e) as [new|x] eqn:He; [|done].
    simpl. rewrite for_loop_result.
    destruct (for_loop es []) as [more|x]; [|done]. simpl. intros [= <-].
    destruct (emit_lines _ _ He) as [Fnew Bnew].
    destruct (IH more eq_refl) as [Fmore Bmore]. split.
    + by apply Forall_app.
    + rewrite blank_lines_app, Bnew, Bmore. unfold paragraphs.
      rewrite filter_cons. by destruct (is_paragraph e).
Qed.

(** C7: every line of a successfully linearized section is free of leading
    and trailing white space (it is its own [strip]); the only empty lines
    are the paragraph-boundary markers, one per paragraph element of a
    traversed division, so that no fragment is emitted empty. *)
Theorem emitted_lines_stripped (section : Element) (lines : list string) :
  process_paper_section section = Ok lines →
  Forall (λ l, strip l = l ∧ leading_space l = false
               ∧ trailing_space l = false) lines
  ∧ (tag section = "{http://www.tei-c.org/ns/1.0}div" →
     blank_lines lines = paragraphs (iter section))
  ∧ (tag section ≠ "{http://www.tei-c.org/ns/1.0}div" → lines = []).
Proof.
  intros H.
  assert (Forall (λ l, strip l = l) lines
          ∧ (tag section = "{http://www.tei-c.org/ns/1.0}div" →
             blank_lines lines = paragraphs (iter section))
          ∧ (tag section ≠ "{http://www.tei-c.org/ns/1.0}div" → lines = []))
    as (HF & Hdiv & Hno).
  { unfold process_paper_section in H.
    repeat case_bool_decide; try (injection H as <-; by rewrite ?H0, ?H1).
    - destruct (for_loop_lines _ _ H) as [HF HB]. done.
    - done. }
  split; [|done].
  eapply Forall_impl; [exact HF|]. intros l Hl. split; [done|].
  rewrite <- Hl. split; [apply strip_leading | apply strip_trailing].
Qed.

Lemma emitted_lines_stripped_witness :
  Forall (λ l, strip l = l ∧ leading_space l = false
               ∧ trailing_space l = false)
    ["[[HEADING: Intro]]"; EmptyString; "Hello"; "[[FORMULA: x=1]]"; "world."]
  ∧ blank_lines
      ["[[HEADING: Intro]]"; EmptyString; "Hello"; "[[FORMULA: x=1]]";
       "world."] = paragraphs (iter intro_section_s).
Proof.
  destruct (emitted_lines_stripped intro_section_s
              ["[[HEADING: Intro]]"; EmptyString; "Hello"; "[[FORMULA: x=1]]";
               "world."]) as (H1 & H2 & _); [vm_compute; reflexivity|].
  split; [exact H1 | apply H2; reflexivity].
Defined.

(** ** Notes and figures inside a division *)

Lemma iter_unfold e : iter e = e :: flat_map iter (children e).
Proof. by destruct e. Qed.

(** The traversal of a subtree is a segment of the traversal of the tree. *)
Lemma iter_subtree s e :
  e ∈ iter s → ∃ pre post, iter s = pre ++ iter e ++ post.
Proof.
  induction s as [tg at_ tx tl cs IH] using Element_ind.
  rewrite iter_unfold. simpl. intros [->|Hin]%elem_of_cons.
  - exists [], []. by rewrite iter_unfold, app_nil_r.
  - apply list_elem_of_In, in_flat_map in Hin as (c & Hc & Hin).
    apply list_elem_of_In in Hc, Hin.
    apply list_elem_of_split in Hc as (l1 & l2 & ->).
    apply Forall_app in IH as [_ IH]. apply Forall_cons in IH as [IH _].
    destruct (IH Hin) as (pre & post & Hc).
    exists (mkElement tg at_ tx tl (l1 ++ c :: l2) :: flat_map iter l1 ++ pre),
      (post ++ flat_map iter l2).
    rewrite flat_map_app. simpl. rewrite Hc. by rewrite <- !app_assoc.
Qed.

Lemma note_figure_other e :
  tag e = "{http://www.tei-c.org/ns/1.0}note"
  ∨ tag e = "{http://www.tei-c.org/ns/1.0}figure" →
  is_heading e = false ∧ is_paragraph e = false ∧ is_formula e = false
  ∧ is_bib_reference e = false.
Proof.
  unfold is_heading, is_paragraph, is_formula, is_bib_reference.
  intros [->| ->]; done.
Qed.

(** C9, as stated: for a note inside a division the emitted lines are not
    in the order of the document; the tail text of the note comes before
    the text of its descendants. *)
Lemma nested_note_out_of_order :
  process_paper_section nested_note_section = Ok ["A"; "C"; "B"]
  ∧ document_order nested_note_section = ["A"; "B"; "C"]
  ∧ process_paper_section nested_note_section ≠
      Ok (document_order nested_note_section).
Proof.
  split; [vm_compute; reflexivity|].
  split; [vm_compute; reflexivity | vm_compute; discriminate].
Qed.

(** C9, amended: the pruning of [note] and [figure] applies to the tag of
    the top-level section only.  Such an element inside a division takes the
    default branch: its turn appends its stripped head text and its stripped
    tail text, and the lines of a successful run hold these two fragments
    followed by the lines of its descendants; nothing of it is pruned. *)
Theorem nested_note_kept (e : Element) :
  tag e = "{http://www.tei-c.org/ns/1.0}note"
  ∨ tag e = "{http://www.tei-c.org/ns/1.0}figure" →
  (∀ result,
     step e result = Ok (result ++ fragment (text e) ++ fragment (tail e)))
  ∧ (∀ section lines,
       tag section = "{http://www.tei-c.org/ns/1.0}div" →
       e ∈ iter section →
       process_paper_section section = Ok lines →
       ∃ before inner after,
         for_loop (flat_map iter (children e)) [] = Ok inner
         ∧ lines = before ++ fragment (text e) ++ fragment (tail e)
                   ++ inner ++ after).
Proof.
  intros Htag. destruct (note_figure_other _ Htag) as (Hh & Hp & Hf & Hb).
  split; [intros result; by apply step_other|].
  intros section lines Hdiv Hin. rewrite (process_div _ Hdiv).
  destruct (iter_subtree _ _ Hin) as (pre & post & ->).
  rewrite for_loop_app.
  destruct (for_loop pre []) as [before|x]; [|done]. simpl.
  rewrite for_loop_app, iter_unfold. simpl.
  rewrite (step_other e) by done. simpl.
  rewrite for_loop_result.
  destruct (for_loop (flat_map iter (children e)) []) as [inner|x]; [|done].
  simpl. rewrite for_loop_result.
  destruct (for_loop post []) as [after|x]; [|done]. simpl.
  intros [= <-]. exists before, inner, after. split; [done|].
  by rewrite <- !app_assoc.
Qed.

Lemma nested_note_kept_witness :
  step nested_note [] = Ok ["A"; "C"]
  ∧ ∃ before inner after,
      for_loop (flat_map iter (children nested_note)) [] = Ok inner
      ∧ ["A"; "C"; "B"] =
          before ++ fragment (text nested_note) ++ fragment (tail nested_note)
          ++ inner ++ after.
Proof.
  destruct (nested_note_kept nested_note) as [H1 H2]; [left; reflexivity|].
  split; [apply (H1 [])|].
  apply (H2 nested_note_section); [reflexivity | | vm_compute; reflexivity].
  simpl. apply elem_of_cons; right. apply elem_of_cons. by left.
Defined.

(** ** The linearizer on the store *)

Lemma deref_snoc d r i :
  Store.deref d (r ++ [i]) = e ← Store.deref d r; children e !! i.
Proof.
  revert d. induction r as [|j r IH]; intros d; simpl.
  - by destruct (children d !! i).
  - destruct (children d !! j) as [c|]; simpl; [apply IH | done].
Qed.

Lemma refs_from_deref d r cs i :
  Forall (λ c, ∀ r', Store.deref d r' = Some c →
            Forall2 (λ r'' e', Store.deref d r'' = Some e')
              (Store.refs_of c r') (iter c)) cs →
  (∀ k c, cs !! k = Some c → Store.deref d (r ++ [i + k]) = Some c) →
  Forall2 (λ r'' e', Store.deref d r'' = Some e')
    (Store.refs_from Store.refs_of r cs i) (flat_map iter cs).
Proof.
  intros IH. revert i. induction IH as [|c cs Hc _ IHcs]; intros i H; simpl.
  - constructor.
  - apply Forall2_app.
    + apply Hc. specialize (H 0 c eq_refl). by rewrite Nat.add_0_r in H.
    + apply IHcs. intros k c' Hk. specialize (H (S k) c' Hk).
      by rewrite Nat.add_succ_r in H.
Qed.

Lemma refs_of_deref d e r :
  Store.deref d r = Some e →
  Forall2 (λ r' e', Store.deref d r' = Some e') (Store.refs_of e r) (iter e).
Proof.
  revert r. induction e as [tg at_ tx tl cs IH] using Element_ind.
  intros r Hr. simpl. constructor; [done|].
  apply refs_from_deref; [exact IH|].
  intros k c Hk. by rewrite deref_snoc, Hr.
Qed.

Lemma read_deref {A} d r e (field : Element → A) :
  Store.deref d r = Some e → Store.read r field d = Some (Ok (field e), d).
Proof. unfold Store.read. by intros ->. Qed.

Lemma is_heading_refines d r e :
  Store.deref d r = Some e →
  Store.is_heading r d = Some (Ok (is_heading e), d).
Proof.
  intros Hr. unfold Store.is_heading, Store.bind.
  by rewrite (read_deref _ _ _ _ Hr).
Qed.

Lemma is_paragraph_refines d r e :
  Store.deref d r = Some e →
  Store.is_paragraph r d = Some (Ok (is_paragraph e), d).
Proof.
  intros Hr. unfold Store.is_paragraph, Store.bind.
  by rewrite (read_deref _ _ _ _ Hr).
Qed.

Lemma is_formula_refines d r e :
  Store.deref d r = Some e →
  Store.is_formula r d = Some (Ok (is_formula e), d).
Proof.
  intros Hr. unfold Store.is_formula, Store.bind.
  by rewrite (read_deref _ _ _ _ Hr).
Qed.

Lemma is_bib_reference_refines d r e :
  Store.deref d r = Some e →
  Store.is_bib_reference r d = Some (Ok (is_bib_reference e), d).
Proof.
  intros Hr. unfold Store.is_bib_reference, is_bib_reference, Store.bind.
  rewrite (read_deref _ _ _ _ Hr). case_bool_decide; [|done].
  by rewrite (read_deref _ _ _ _ Hr).
Qed.

Lemma bind_read {A B} d r e (field : Element → A) (k : A → Store.Py B) :
  Store.deref d r = Some e →
  Store.bind (Store.read r field) k d = k (field e) d.
Proof. intros Hr. unfold Store.bind. by rewrite (read_deref _ _ _ _ Hr). Qed.

Lemma bind_bind {A B C} (m : Store.Py A) (f : A → Store.Py B)
    (g : B → Store.Py C) d :
  Store.bind (Store.bind m f) g d =
  Store.bind m (λ a, Store.bind (f a) g) d.
Proof.
  unfold Store.bind. by destruct (m d) as [[[a|x] d']|].
Qed.

Lemma tail_fragment_refines d r e result :
  Store.deref d r = Some e →
  Store.bind (Store.read r tail)
    (λ tl, match strip <$> tl with
           | Some (String c s) => Store.ret (result ++ [String c s])
           | _ => Store.ret result
           end) d = Some (Ok (result ++ fragment (tail e)), d).
Proof.
  intros Hr. rewrite (bind_read _ _ _ _ _ Hr). unfold fragment.
  destruct (strip <$> tail e) as [[|c s]|]; unfold Store.ret;
    by rewrite ?app_nil_r.
Qed.

Lemma step_refines d r e result :
  Store.deref d r = Some e →
  Store.step r result d = Some (step e result, d).
Proof.
  intros Hr. unfold Store.step. rewrite bind_bind.
  unfold Store.bind at 1. rewrite (is_heading_refines _ _ _ Hr).
  destruct (is_heading e) eqn:Hh.
  { rewrite (step_heading _ _ Hh), bind_bind, (bind_read _ _ _ _ _ Hr).
    destruct (text e) as [t|]; [|done].
    unfold Store.bind at 1, Store.ret at 1.
    rewrite (tail_fragment_refines _ _ _ _ Hr). by rewrite <- app_assoc. }
  rewrite bind_bind. unfold Store.bind at 1.
  rewrite (is_paragraph_refines _ _ _ Hr).
  destruct (is_paragraph e) eqn:Hp.
  { rewrite (step_paragraph _ _ Hp), bind_bind, (bind_read _ _ _ _ _ Hr).
    destruct (text e) as [t|]; [done|].
    rewrite bind_bind, (bind_read _ _ _ _ _ Hr).
    destruct (tail e) as [tl|] eqn:Htl; [done|].
    unfold Store.bind at 1, Store.ret at 1.
    rewrite (tail_fragment_refines _ _ _ _ Hr), Htl. by rewrite app_nil_r. }
  rewrite bind_bind. unfold Store.bind at 1.
  rewrite (is_formula_refines _ _ _ Hr).
  destruct (is_formula e) eqn:Hf.
  { rewrite (step_formula _ _ Hf), bind_bind, (bind_read _ _ _ _ _ Hr).
    destruct (text e) as [t|]; [|done].
    unfold Store.bind at 1, Store.ret at 1.
    rewrite (tail_fragment_refines _ _ _ _ Hr). by rewrite <- app_assoc. }
  rewrite bind_bind. unfold Store.bind at 1.
  rewrite (is_bib_reference_refines _ _ _ Hr).
  destruct (is_bib_reference e) eqn:Hb.
  { rewrite (step_bib_reference _ _ Hb).
    unfold Store.bind at 1, Store.ret at 1.
    by rewrite (tail_fragment_refines _ _ _ _ Hr). }
  rewrite (step_other _ _ Hh Hp Hf Hb), bind_bind, (bind_read _ _ _ _ _ Hr).
  assert (∀ k : list string → Store.Py (list string),
            Store.bind
              match strip <$> text e with
              | Some (String c s) => Store.ret (result ++ [String c s])
              | _ => Store.ret result
              end k d = k (result ++ fragment (text e)) d) as ->.
  { intros k. unfold fragment.
    destruct (strip <$> text e) as [[|c s]|]; unfold Store.bind, Store.ret;
      by rewrite ?app_nil_r. }
  rewrite (tail_fragment_refines _ _ _ _ Hr). by rewrite <- app_assoc.
Qed.

Lemma for_loop_refines d rs es result :
  Forall2 (λ r e, Store.deref d r = Some e) rs es →
  Store.for_loop rs result d = Some (for_loop es result, d).
Proof.
  intros H. revert result.
  induction H as [|r e rs es Hr _ IH]; intros result; simpl; [done|].
  unfold Store.bind. rewrite (step_refines _ _ _ _ Hr).
  destruct (step e result) as [out|x]; simpl; [apply IH | done].
Qed.

Lemma process_paper_section_refines d r section :
  Store.deref d r = Some section →
  Store.process_paper_section r d = Some (process_paper_section section, d).
Proof.
  intros Hr. unfold Store.process_paper_section, process_paper_section.
  rewrite (bind_read _ _ _ _ _ Hr). case_bool_decide; [done|].
  rewrite (bind_read _ _ _ _ _ Hr). case_bool_decide; [done|].
  rewrite (bind_read _ _ _ _ _ Hr). case_bool_decide.
  - unfold Store.bind, Store.iter. rewrite Hr. simpl.
    apply for_loop_refines. by apply refs_of_deref.
  - by rewrite (bind_read _ _ _ _ _ Hr).
Qed.

(** ** Determinism and the unchanged document *)

(** A computation of the store can change the document: after
    [element.text = v] on a paragraph the same section is rejected. *)
Lemma set_text_changes_document :
  Store.process_paper_section [0] (body_of [plain_p_section]) =
    Some (Ok [EmptyString; "One."], body_of [plain_p_section])
  ∧ Store.bind (Store.set_text [0; 0] (Some "x"))
      (λ _, Store.process_paper_section [0]) (body_of [plain_p_section]) =
    Some (Raise AssertionError,
          body_of [tei "div" None None
                     [tei "p" (Some "x") None [tei "s" (Some "One.") None []]]]).
Proof. split; vm_compute; reflexivity. Qed.

(** C8: the linearizer is deterministic and does not mutate.  Run on a
    section of a document, it leaves the document as it found it and its
    outcome is a function of the section alone; run a second time, in the
    store the first run left, it gives the same outcome again and the
    document is still the same. *)
Theorem linearization_pure (d : Element) (r : Store.ref) (section : Element) :
  Store.deref d r = Some section →
  Store.process_paper_section r d = Some (process_paper_section section, d)
  ∧ run_twice r d =
      Some (process_paper_section section, process_paper_section section, d).
Proof.
  intros Hr. pose proof (process_paper_section_refines _ _ _ Hr) as H.
  split; [exact H|]. unfold run_twice. rewrite H. simpl. by rewrite H.
Qed.

Lemma linearization_pure_witness :
  run_twice [0] (body_of [intro_section_s; note_N]) =
    Some (Ok ["[[HEADING: Intro]]"; EmptyString; "Hello"; "[[FORMULA: x=1]]";
              "world."],
          Ok ["[[HEADING: Intro]]"; EmptyString; "Hello"; "[[FORMULA: x=1]]";
              "world."],
          body_of [intro_section_s; note_N]).
Proof.
  apply (linearization_pure (body_of [intro_section_s; note_N]) [0]
           intro_section_s).
  reflexivity.
Defined.

(** * Further properties of the code *)

(** ** The classifier *)

(** The four predicates of the classifier exclude one another, so that the
    order of the [if]/[elif] chain decides nothing. *)
Theorem classifier_exclusive (e : Element) :
  Nat.b2n (is_heading e) + Nat.b2n (is_paragraph e) + Nat.b2n (is_formula e)
  + Nat.b2n (is_bib_reference e) ≤ 1.
Proof.
  pose proof (is_paragraph_not_heading e) as Hph.
  pose proof (is_formula_not_heading e) as Hfh.
  pose proof (is_formula_not_paragraph e) as Hfp.
  pose proof (is_bib_reference_other e) as Hb.
  destruct (is_heading e), (is_paragraph e), (is_formula e),
    (is_bib_reference e); simpl; try lia;
    try (by specialize (Hph eq_refl)); try (by specialize (Hfh eq_refl));
    try (by specialize (Hfp eq_refl));
    by destruct (Hb eq_refl) as (? & ? & ?).
Qed.

(** ** Which sections are accepted *)

Lemma emit_shape_ok e : shape_ok e = true → ∃ new, emit e = Ok new.
Proof.
  unfold shape_ok, emit.
  destruct (is_heading e) eqn:Hh;
    [|destruct (is_paragraph e) eqn:Hp;
      [|destruct (is_formula e) eqn:Hf;
        [|destruct (is_bib_reference e) eqn:Hb]]].
  - rewrite (step_heading e) by done.
    intros [t Ht]%bool_decide_eq_true. rewrite Ht. by eexists.
  - rewrite (step_paragraph e) by done.
    intros [->%bool_decide_eq_true ->%bool_decide_eq_true]%andb_true_iff.
    by eexists.
  - rewrite (step_formula e) by done.
    intros [t Ht]%bool_decide_eq_true. rewrite Ht. by eexists.
  - rewrite (step_bib_reference e) by done. by eexists.
  - rewrite (step_other e) by done. by eexists.
Qed.

Lemma emit_shape_bad e : shape_ok e = false → emit e = Raise AssertionError.
Proof.
  unfold shape_ok, emit.
  destruct (is_heading e) eqn:Hh;
    [|destruct (is_paragraph e) eqn:Hp;
      [|destruct (is_formula e) eqn:Hf; [|done]]].
  - rewrite (step_heading e) by done. intros H%bool_decide_eq_false.
    destruct (text e); [|done]. destruct H. by eexists.
  - rewrite (step_paragraph e) by done. intros H%andb_false_iff.
    destruct (text e), (tail e); try done.
    by destruct H as [H%bool_decide_eq_false|H%bool_decide_eq_false].
  - rewrite (step_formula e) by done. intros H%bool_decide_eq_false.
    destruct (text e); [|done]. destruct H. by eexists.
Qed.

Lemma for_loop_ok es result :
  Forall (λ e, shape_ok e = true) es → ∃ out, for_loop es result = Ok out.
Proof.
  intros H. revert result.
  induction H as [|e es He _ IH]; intros result; simpl; [by eexists|].
  destruct (emit_shape_ok _ He) as [new Hnew].
  rewrite step_emit, Hnew. simpl. apply IH.
Qed.

Lemma for_loop_bad es result :
  Exists (λ e, shape_ok e = false) es →
  for_loop es result = Raise AssertionError.
Proof.
  intros (e & Hin & He)%Exists_exists.
  apply (for_loop_raise _ _ e Hin). by apply emit_shape_bad.
Qed.

Lemma shape_dichotomy es :
  Forall (λ e, shape_ok e = true) es ∨ Exists (λ e, shape_ok e = false) es.
Proof.
  induction es as [|e es [IH|IH]].
  - left. constructor.
  - destruct (shape_ok e) eqn:He.
    + left. by constructor.
    + right. by constructor.
  - right. by constructor.
Qed.

(** A section is linearized without error exactly when it is a note, a
    figure, or a division all of whose elements, the division itself
    included, have the shape the loop asserts. *)
Theorem process_accepts_iff (section : Element) :
  (∃ lines, process_paper_section section = Ok lines) ↔
  tag section = "{http://www.tei-c.org/ns/1.0}note"
  ∨ tag section = "{http://www.tei-c.org/ns/1.0}figure"
  ∨ (tag section = "{http://www.tei-c.org/ns/1.0}div"
     ∧ Forall (λ e, shape_ok e = true) (iter section)).
Proof.
  unfold process_paper_section.
  case_bool_decide as Hn; [split; [by left | by eexists]|].
  case_bool_decide as Hf; [split; [by right; left | by eexists]|].
  case_bool_decide as Hd.
  - split.
    + intros [lines H]. right; right. split; [done|].
      destruct (shape_dichotomy (iter section)) as [Hok|Hbad]; [done|].
      by rewrite (for_loop_bad _ _ Hbad) in H.
    + intros [?|[?|[_ Hok]]]; try done. by apply for_loop_ok.
  - split; [by intros [lines H]|]. by intros [?|[?|[? _]]].
Qed.

(** The two ways a section is rejected: an assertion error for a division
    that holds an element of the wrong shape, a value error that quotes the
    tag for a section that is neither note, figure nor division. *)
Theorem process_rejects_iff (section : Element) (x : exn) :
  process_paper_section section = Raise x ↔
  (x = AssertionError
   ∧ tag section = "{http://www.tei-c.org/ns/1.0}div"
   ∧ Exists (λ e, shape_ok e = false) (iter section))
  ∨ (x = ValueError ("Unexpected section tag: " +:+ tag section)
     ∧ tag section ≠ "{http://www.tei-c.org/ns/1.0}note"
     ∧ tag section ≠ "{http://www.tei-c.org/ns/1.0}figure"
     ∧ tag section ≠ "{http://www.tei-c.org/ns/1.0}div").
Proof.
  unfold process_paper_section.
  case_bool_decide as Hn.
  { split; [done|]. intros [(_ & Hd & _)|(_ & ? & _)]; [|done].
    by rewrite Hn in Hd. }
  case_bool_decide as Hf.
  { split; [done|]. intros [(_ & Hd & _)|(_ & _ & ? & _)]; [|done].
    by rewrite Hf in Hd. }
  case_bool_decide as Hd.
  - split.
    + intros H. left. rewrite (for_loop_AssertionError _ _ _ H).
      split; [done|]. split; [done|].
      destruct (shape_dichotomy (iter section)) as [Hok|Hbad]; [|done].
      destruct (for_loop_ok _ [] Hok) as [out Hout]. congruence.
    + intros [(-> & _ & Hbad)|(_ & _ & _ & ?)]; [|done].
      by apply for_loop_bad.
  - split.
    + intros [= <-]. by right.
    + intros [(_ & ? & _)|(-> & _)]; done.
Qed.

(** ** Size and layout of the lines of a division *)

Lemma fragment_length slot : length (fragment slot) ≤ 1.
Proof. unfold fragment. destruct (strip <$> slot) as [[|c s]|]; simpl; lia. Qed.

Lemma emit_length e new : emit e = Ok new → length new ≤ 2.
Proof.
  pose proof (fragment_length (text e)). pose proof (fragment_length (tail e)).
  unfold emit.
  destruct (is_heading e) eqn:Hh;
    [|destruct (is_paragraph e) eqn:Hp;
      [|destruct (is_formula e) eqn:Hf;
        [|destruct (is_bib_reference e) eqn:Hb]]].
  - rewrite (step_heading e) by done. destruct (text e); [|done].
    intros [= <-]. simpl. lia.
  - rewrite (step_paragraph e) by done. destruct (text e), (tail e); try done.
    intros [= <-]. simpl. lia.
  - rewrite (step_formula e) by done. destruct (text e); [|done].
    intros [= <-]. simpl. lia.
  - rewrite (step_bib_reference e) by done. intros [= <-]. simpl. lia.
  - rewrite (step_other e) by done. intros [= <-]. simpl.
    rewrite length_app. lia.
Qed.

Lemma for_loop_length es lines :
  for_loop es [] = Ok lines → length lines ≤ 2 * length es.
Proof.
  revert lines. induction es as [|e es IH]; intros lines; simpl.
  - intros [= <-]. simpl. lia.
  - rewrite (step_emit e []). destruct (emit e) as [new|x] eqn:He; [|done].
    simpl. rewrite for_loop_result.
    destruct (for_loop es []) as [more|x]; [|done]. simpl. intros [= <-].
    pose proof (emit_length _ _ He). pose proof (IH more eq_refl).
    rewrite length_app. lia.
Qed.

(** A section never yields more than two lines per element of its
    subtree: one for the head text, one for the tail text. *)
Theorem lines_at_most_two_per_element (section : Element) (lines : list string) :
  process_paper_section section = Ok lines →
  length lines ≤ 2 * length (iter section).
Proof.
  unfold process_paper_section. repeat case_bool_decide; try done.
  - intros [= <-]. simpl. lia.
  - intros [= <-]. simpl. lia.
  - apply for_loop_length.
Qed.

Lemma lines_at_most_two_per_element_witness :
  length ["[[HEADING: Intro]]"; EmptyString; "Hello"; "[[FORMULA: x=1]]";
          "world."] ≤ 2 * length (iter intro_section_s).
Proof.
  apply (lines_at_most_two_per_element intro_section_s).
  vm_compute. reflexivity.
Defined.

Lemma div_other e :
  tag e = "{http://www.tei-c.org/ns/1.0}div" →
  is_heading e = false ∧ is_paragraph e = false ∧ is_formula e = false
  ∧ is_bib_reference e = false.
Proof.
  unfold is_heading, is_paragraph, is_formula, is_bib_reference.
  by intros ->.
Qed.

(** The lines of a division start with the division's own head text and
    then its own tail text (the text after its closing tag); the lines of
    its descendants follow. *)
Theorem division_own_text_first (section : Element) :
  tag section = "{http://www.tei-c.org/ns/1.0}div" →
  process_paper_section section =
    (λ rest, fragment (text section) ++ fragment (tail section) ++ rest)
    <$> for_loop (flat_map iter (children section)) [].
Proof.
  intros Hdiv. destruct (div_other _ Hdiv) as (Hh & Hp & Hf & Hb).
  rewrite (process_div _ Hdiv), iter_unfold. simpl.
  rewrite (step_other _ _ Hh Hp Hf Hb). simpl. rewrite for_loop_result.
  destruct (for_loop (flat_map iter (children section)) []); simpl; [|done].
  by rewrite <- app_assoc.
Qed.

Lemma division_own_text_first_witness :
  process_paper_section (tei "div" (Some "A") (Some " after ") [div_B]) =
    Ok ["A"; "after"; "B"].
Proof.
  rewrite (division_own_text_first (tei "div" (Some "A") (Some " after ")
                                      [div_B])); reflexivity.
Defined.

(** ** References that are not bibliographic *)

(** A [ref] element whose [type] attribute is missing or is not ["bibr"]
    is treated like any other element: its head text is emitted. *)
Theorem ref_without_bibr_emitted (e : Element) (result : list string) :
  tag e = "{http://www.tei-c.org/ns/1.0}ref" →
  attrib e !! "type" ≠ Some "bibr" →
  step e result = Ok (result ++ fragment (text e) ++ fragment (tail e)).
Proof.
  intros Htag Hty. apply step_other.
  - unfold is_heading. by rewrite Htag.
  - unfold is_paragraph. by rewrite Htag.
  - unfold is_formula. by rewrite Htag.
  - unfold is_bib_reference. rewrite (bool_decide_eq_false_2 _ Hty).
    apply andb_false_r.
Qed.

Lemma ref_without_bibr_emitted_witness :
  step (tei "ref" (Some "Fig. 2") None []) ["see"] = Ok ["see"; "Fig. 2"]
  ∧ step (mkElement (TEI +:+ "ref") {[ "type" := "figure" ]} (Some "Fig. 2")
            None []) ["see"] = Ok ["see"; "Fig. 2"].
Proof.
  split.
  - apply (ref_without_bibr_emitted (tei "ref" (Some "Fig. 2") None []));
      [reflexivity | discriminate].
  - apply (ref_without_bibr_emitted
             (mkElement (TEI +:+ "ref") {[ "type" := "figure" ]}
                (Some "Fig. 2") None []));
      [reflexivity | vm_compute; discriminate].
Defined.

(** ** No subtree of a division is skipped *)



(** ** Placeholders are not escaped *)

(** Text that already has the form of a heading placeholder is emitted as
    it is: a plain element with that head text gives the same lines as the
    heading. *)
Theorem placeholder_not_escaped (h o : Element) (t : string) :
  is_heading h = true → text h = Some t →
  is_heading o = false → is_paragraph o = false → is_formula o = false →
  is_bib_reference o = false →
  text o = Some ("[[HEADING: " +:+ strip t +:+ "]]") → tail o = tail h →
  emit o = emit h.
Proof.
  intros Hh Ht Ho1 Ho2 Ho3 Ho4 Hto Htl. unfold emit.
  rewrite (step_heading _ _ Hh), Ht, (step_other _ _ Ho1 Ho2 Ho3 Ho4).
  rewrite Hto, Htl. do 2 f_equal. unfold fragment. simpl.
  by rewrite (placeholder_stripped "[[HEADING: " t).
Qed.

Lemma placeholder_not_escaped_witness :
  emit (tei "s" (Some "[[HEADING: Intro]]") None []) =
  emit (tei "head" (Some " Intro ") None []).
Proof.
  apply (placeholder_not_escaped _ _ " Intro "); reflexivity.
Defined.

(** ** Which text is dropped *)

Lemma lstrip_blank s : lstrip s = EmptyString ↔ blank s = true.
Proof.
  induction s as [|c s IH]; simpl; [done|].
  destruct (isspace c); simpl; [exact IH | done].
Qed.








(** ** The assembler: outcome *)

Lemma mapM_Ok {A B} (f : A → Exc B) l ks :
  mapM f l = Ok ks ↔ Forall2 (λ a k, f a = Ok k) l ks.
Proof.
  revert ks. induction l as [|a l IH]; intros ks; simpl.
  - split; [intros [= <-]; constructor | by intros ->%Forall2_nil_inv_l].
  - destruct (f a) as [k|x] eqn:Ha; simpl.
    + destruct (mapM f l) as [ks'|x] eqn:Hl; simpl.
      * split.
        -- intros [= <-]. constructor; [done|]. by apply IH.
        -- intros (k' & ks'' & Hk & Hks & ->)%Forall2_cons_inv_l.
           apply IH in Hks. rewrite Ha in Hk.
           injection Hk as <-. by injection Hks as <-.
      * split; [done|].
        intros (k' & ks'' & Hk & Hks & ->)%Forall2_cons_inv_l.
        by apply IH in Hks.
    + split; [done|].
      intros (k' & ks'' & Hk & Hks & ->)%Forall2_cons_inv_l. congruence.
Qed.

Lemma mapM_Raise {A B} (f : A → Exc B) l x :
  mapM f l = Raise x ↔
  ∃ pre a post, l = pre ++ a :: post
                ∧ Forall (λ a', ∃ k, f a' = Ok k) pre ∧ f a = Raise x.
Proof.
  split.
  - induction l as [|a l IH]; simpl; [done|].
    destruct (f a) as [k|y] eqn:Ha; simpl.
    + destruct (mapM f l) as [ks'|y] eqn:Hl; simpl; [done|].
      intros [= <-].
      destruct (IH eq_refl) as (pre & b & post & -> & Hpre & Hb).
      exists (a :: pre), b, post. split; [done|]. split; [|done].
      constructor; [by eexists | done].
    + intros [= <-]. exists [], a, l. by repeat split.
  - intros (pre & a & post & -> & Hpre & Ha).
    induction Hpre as [|a' pre [k Hk] _ IH]; simpl.
    + by rewrite Ha.
    + rewrite Hk. simpl. by rewrite IH.
Qed.

(** The assembler succeeds exactly when every top-level section is
    linearized, and then joins their lines; it fails exactly with the
    exception of the first section, in document order, that is rejected,
    whatever the sections before it produced. *)
Theorem assemble_outcome (body_element : Element) :
  (∀ lines,
     assemble body_element = Ok lines ↔
     ∃ sections,
       Forall2 (λ s l, process_paper_section s = Ok l)
         (children body_element) sections
       ∧ lines = rough_text sections)
  ∧ (∀ x,
       assemble body_element = Raise x ↔
       ∃ pre s post,
         children body_element = pre ++ s :: post
         ∧ Forall (λ s', ∃ l, process_paper_section s' = Ok l) pre
         ∧ process_paper_section s = Raise x).
Proof.
  unfold assemble, rough_sections. split.
  - intros lines. split.
    + destruct (mapM _ _) as [sections|x] eqn:H; [|done]. simpl.
      intros [= <-]. exists sections. split; [|done]. by apply mapM_Ok.
    + intros (sections & H%mapM_Ok & ->). by rewrite H.
  - intros x. rewrite <- mapM_Raise.
    destruct (mapM _ _) as [sections|y]; simpl; [done|].
    split; by intros [= <-].
Qed.

(** ** The assembler: layout of the lines *)

Lemma rough_text_drop_empty (sections : list (list string)) :
  rough_text sections =
    match drop_empty sections with
    | [] => []
    | l :: rest => l ++ flat_map (EmptyString ::.) rest
    end.
Proof.
  induction sections as [|l sections IH]; [done|].
  rewrite rough_text_cons. simpl. by case_bool_decide.
Qed.

Lemma mjoin_drop_empty (sections : list (list string)) :
  mjoin (drop_empty sections) = mjoin sections.
Proof.
  induction sections as [|l sections IH]; simpl; [done|].
  case_bool_decide as H; [by rewrite H | done].
Qed.

Lemma length_separated (sections : list (list string)) :
  length (flat_map (EmptyString ::.) sections) =
  length (mjoin sections) + length sections.
Proof.
  induction sections as [|l sections IH]; simpl; [done|].
  rewrite !length_app, IH. lia.
Qed.

(** Sections without lines at the start of the body leave no trace; from
    the first section with lines on, every later section, with or without
    lines, is preceded by one separator line.  So the assembled text has
    one line per line of a section, and one separator less than there are
    sections from the first one with lines on. *)
Theorem rough_text_closed_form (sections : list (list string)) :
  rough_text sections =
    match drop_empty sections with
    | [] => []
    | l :: rest => l ++ flat_map (EmptyString ::.) rest
    end
  ∧ length (rough_text sections) =
      length (mjoin sections) + (length (drop_empty sections) - 1).
Proof.
  split; [apply rough_text_drop_empty|].
  rewrite rough_text_drop_empty, <- (mjoin_drop_empty sections).
  destruct (drop_empty sections) as [|l rest]; [done|].
  simpl. rewrite !length_app, length_separated. lia.
Qed.

Lemma filter_separated (sections : list (list string)) :
  filter (λ l, l ≠ EmptyString) (flat_map (EmptyString ::.) sections) =
  filter (λ l, l ≠ EmptyString) (mjoin sections).
Proof.
  induction sections as [|l sections IH]; simpl; [done|].
  rewrite filter_cons, decide_False by (by intros ?).
  by rewrite !filter_app, IH.
Qed.

(** The assembler neither drops, adds nor reorders a non-empty line: apart
    from empty lines its output is the concatenation of the sections. *)
Theorem rough_text_keeps_lines (sections : list (list string)) :
  filter (λ l, l ≠ EmptyString) (rough_text sections) =
  filter (λ l, l ≠ EmptyString) (mjoin sections).
Proof.
  rewrite <- (mjoin_drop_empty sections), rough_text_drop_empty.
  destruct (drop_empty sections) as [|l rest]; [done|].
  simpl. by rewrite !filter_app, filter_separated.
Qed.

Lemma drop_empty_nil (sections : list (list string)) :
  drop_empty sections = [] ↔ Forall (λ l, l = []) sections.
Proof.
  induction sections as [|l sections IH]; simpl.
  - split; [constructor | done].
  - case_bool_decide as H.
    + rewrite IH. split; [by constructor | by intros [_ ?]%Forall_cons].
    + split; [done | by intros [? _]%Forall_cons].
Qed.

Lemma rough_text_nil_iff (sections : list (list string)) :
  rough_text sections = [] ↔ Forall (λ l, l = []) sections.
Proof.
  rewrite <- drop_empty_nil.
  induction sections as [|l sections IH]; [done|].
  rewrite rough_text_cons. simpl. case_bool_decide as H; [exact IH|].
  split; [|done]. by destruct l.
Qed.

Lemma assemble_pruned_only body_element :
  Forall (λ s, tag s = "{http://www.tei-c.org/ns/1.0}note"
               ∨ tag s = "{http://www.tei-c.org/ns/1.0}figure")
    (children body_element) →
  assemble body_element = Ok [].
Proof.
  intros Hall.
  rewrite (assemble_sections _ (replicate (length (children body_element)) [])).
  - f_equal. apply rough_text_nil_iff. by apply Forall_replicate.
  - induction Hall as [|s ss Hs _ IH]; simpl; [done|].
    assert (process_paper_section s = Ok []) as ->.
    { unfold process_paper_section. by destruct Hs as [->| ->]. }
    simpl. by rewrite IH.
Qed.

(** The assembled text is empty exactly when no section has a line; a body
    of notes and figures only yields no line at all, not even a
    separator. *)
Theorem rough_text_empty_iff :
  (∀ sections, rough_text sections = [] ↔ Forall (λ l, l = []) sections)
  ∧ (∀ body_element,
       Forall (λ s, tag s = "{http://www.tei-c.org/ns/1.0}note"
                    ∨ tag s = "{http://www.tei-c.org/ns/1.0}figure")
         (children body_element) →
       assemble body_element = Ok []).
Proof. split; [exact rough_text_nil_iff | exact assemble_pruned_only]. Qed.

Lemma rough_text_empty_iff_witness :
  assemble (body_of [note_N; tei "figure" None None [blank_p]]) = Ok [].
Proof.
  destruct rough_text_empty_iff as [_ H]. apply H.
  simpl. constructor; [left; reflexivity|].
  constructor; [right; reflexivity|]. constructor.
Defined.

(** ** From the parsed tree to the assembler *)

Lemma unpack1_Ok {A} (values : list A) x : unpack1 values = Ok x ↔ values = [x].
Proof.
  destruct values as [|y [|z values]]; simpl; split; try done.
  - by intros [= ->].
  - by intros [= ->].
Qed.

Lemma unpack1_Raise {A} (values : list A) :
  length values ≠ 1 → ∃ msg, unpack1 values = Raise (ValueError msg).
Proof.
  destruct values as [|y [|z values]]; simpl; [by eexists | done | by eexists].
Qed.

(** [main] reaches the assembler exactly when the root has one [text]
    child and that child has one [body] child, both looked up among direct
    children only; the lines are then those of this body, and nothing else
    of the tree is read.  With no such child, or several, the unpacking
    raises a value error. *)
Theorem main_rough_text_outcome (tree : Element) :
  (∀ lines,
     main_rough_text tree = Ok lines ↔
     ∃ t b, findall tree "{http://www.tei-c.org/ns/1.0}text" = [t]
            ∧ findall t "{http://www.tei-c.org/ns/1.0}body" = [b]
            ∧ assemble b = Ok lines)
  ∧ (length (findall tree "{http://www.tei-c.org/ns/1.0}text") ≠ 1 →
     ∃ msg, main_rough_text tree = Raise (ValueError msg))
  ∧ (∀ t, findall tree "{http://www.tei-c.org/ns/1.0}text" = [t] →
          length (findall t "{http://www.tei-c.org/ns/1.0}body") ≠ 1 →
          ∃ msg, main_rough_text tree = Raise (ValueError msg)).
Proof.
  unfold main_rough_text. split; [|split].
  - intros lines. split.
    + destruct (unpack1 (findall tree _)) as [t|x] eqn:Ht; [|done]. simpl.
      destruct (unpack1 (findall t _)) as [b|x] eqn:Hb; [|done]. simpl.
      intros H. exists t, b. by rewrite <- !unpack1_Ok.
    + intros (t & b & Ht & Hb & H). rewrite Ht. simpl. by rewrite Hb.
  - intros H. destruct (unpack1_Raise _ H) as [msg ->]. by exists msg.
  - intros t Ht H. rewrite Ht. simpl.
    destruct (unpack1_Raise _ H) as [msg ->]. by exists msg.
Qed.

Lemma main_rough_text_outcome_witness :
  (∃ msg, main_rough_text (tei "TEI" None None [tei "teiHeader" None None []])
          = Raise (ValueError msg))
  ∧ (∃ msg,
       main_rough_text
         (tei "TEI" None None
            [tei "text" None None [body_of [div_A]; body_of [div_B]]])
       = Raise (ValueError msg)).
Proof.
  split.
  - destruct (main_rough_text_outcome
                (tei "TEI" None None [tei "teiHeader" None None []]))
      as (_ & H & _).
    apply H. vm_compute. discriminate.
  - destruct (main_rough_text_outcome
                (tei "TEI" None None
                   [tei "text" None None [body_of [div_A]; body_of [div_B]]]))
      as (_ & _ & H).
    apply (H (tei "text" None None [body_of [div_A]; body_of [div_B]]));
      [vm_compute; reflexivity | vm_compute; discriminate].
Defined.

(** ** The text handed to the rewriting service *)

Lemma join_cons sep l rest :
  rest ≠ [] → join sep (l :: rest) = l +:+ sep +:+ join sep rest.
Proof. by destruct rest. Qed.

Lemma string_app_assoc (a b c : string) : (a +:+ b) +:+ c = a +:+ b +:+ c.
Proof.
  induction a as [|x a IH]; [done|].
  change (String x ((a +:+ b) +:+ c) = String x (a +:+ b +:+ c)).
  by rewrite IH.
Qed.

Lemma join_app sep l1 l2 :
  l1 ≠ [] → l2 ≠ [] →
  join sep (l1 ++ l2) = join sep l1 +:+ sep +:+ join sep l2.
Proof.
  intros H1 H2. induction l1 as [|l l1 IH]; [done|].
  destruct l1 as [|l' l1].
  - simpl ([l] ++ l2). by rewrite join_cons.
  - change ((l :: l' :: l1) ++ l2) with (l :: ((l' :: l1) ++ l2)).
    rewrite !join_cons by done. rewrite IH by done.
    by rewrite !string_app_assoc.
Qed.

(** In the text sent to the rewriting service, the lines of two
    consecutive sections that both have lines stand one empty line apart:
    exactly two line feeds separate the two joined texts. *)
Theorem sections_one_empty_line_apart (l1 l2 : list string) :
  l1 ≠ [] → l2 ≠ [] →
  join newline (rough_text [l1; l2]) =
    join newline l1 +:+ newline +:+ newline +:+ join newline l2.
Proof.
  intros H1 H2. rewrite rough_text_cons, bool_decide_eq_false_2 by done.
  simpl. rewrite app_nil_r, join_app by done.
  by rewrite join_cons.
Qed.

Lemma sections_one_empty_line_apart_witness :
  join newline (rough_text [["A"; "B"]; ["C"]]) =
    join newline ["A"; "B"] +:+ newline +:+ newline +:+ join newline ["C"].
Proof. apply sections_one_empty_line_apart; discriminate. Defined.

(** ** The response of the rewriting service *)

(** [main] accepts a response exactly when it holds one candidate whose
    content holds one part with text; the revised text is that text
    stripped, so it never starts or ends with white space. *)
Theorem revised_text_outcome (response : Gemini.GenerateContentResponse) :
  (∀ s,
     revised_text response = Ok s ↔
     ∃ t, response =
            Gemini.mkResponse
              (Some [Gemini.mkCandidate
                       (Some (Gemini.mkContent
                                (Some [Gemini.mkPart (Some t)])))])
          ∧ s = strip t)
  ∧ (∀ s, revised_text response = Ok s →
          strip s = s ∧ leading_space s = false ∧ trailing_space s = false).
Proof.
  assert (∀ s,
     revised_text response = Ok s ↔
     ∃ t, response =
            Gemini.mkResponse
              (Some [Gemini.mkCandidate
                       (Some (Gemini.mkContent
                                (Some [Gemini.mkPart (Some t)])))])
          ∧ s = strip t) as Hiff.
  { intros s. split.
    - destruct response as [[[|[[[[[|[[t|]] [|??]]|]]|]] [|??]]|]]; try done.
      simpl. intros [= <-]. by exists t.
    - by intros (t & -> & ->). }
  split; [exact Hiff|].
  intros s (t & _ & ->)%Hiff.
  split; [apply strip_strip|]. split; [apply strip_leading|apply strip_trailing].
Qed.

Lemma revised_text_outcome_witness :
  strip "Hello." = "Hello." ∧ leading_space "Hello." = false
  ∧ trailing_space "Hello." = false.
Proof.
  destruct (revised_text_outcome
              (Gemini.mkResponse
                 (Some [Gemini.mkCandidate
                          (Some (Gemini.mkContent
                                   (Some [Gemini.mkPart
                                            (Some " Hello. ")])))])))
    as [_ H].
  apply (H "Hello."). reflexivity.
Defined.

(** A response is rejected with an assertion error when a field that
    [main] asserts is missing, and with a value error when it holds no
    candidate or several, or no part or several. *)
Theorem revised_text_rejects (response : Gemini.GenerateContentResponse) :
  (Gemini.candidates response = None →
   revised_text response = Raise AssertionError)
  ∧ (∀ cs, Gemini.candidates response = Some cs → length cs ≠ 1 →
           ∃ msg, revised_text response = Raise (ValueError msg))
  ∧ (∀ c, Gemini.candidates response = Some [c] →
          Gemini.content c = None ∨ Gemini.content c = Some (Gemini.mkContent None) →
          revised_text response = Raise AssertionError)
  ∧ (∀ c ps, Gemini.candidates response = Some [c] →
             Gemini.content c = Some (Gemini.mkContent (Some ps)) →
             length ps ≠ 1 →
             ∃ msg, revised_text response = Raise (ValueError msg))
  ∧ (∀ c, Gemini.candidates response = Some [c] →
          Gemini.content c =
            Some (Gemini.mkContent (Some [Gemini.mkPart None])) →
          revised_text response = Raise AssertionError).
Proof.
  unfold revised_text. split; [|split; [|split; [|split]]].
  - by intros ->.
  - intros cs -> H. destruct (unpack1_Raise _ H) as [msg ->]. by exists msg.
  - intros c -> Hc. simpl. by destruct Hc as [-> | ->].
  - intros c ps -> Hc H. simpl. rewrite Hc. simpl.
    destruct (unpack1_Raise _ H) as [msg ->]. by exists msg.
  - intros c -> Hc. simpl. by rewrite Hc.
Qed.

Lemma revised_text_rejects_witness :
  revised_text (Gemini.mkResponse None) = Raise AssertionError
  ∧ ∃ msg, revised_text (Gemini.mkResponse (Some [])) = Raise (ValueError msg).
Proof.
  split.
  - apply (revised_text_rejects (Gemini.mkResponse None)). reflexivity.
  - destruct (revised_text_rejects (Gemini.mkResponse (Some [])))
      as (_ & H & _).
    apply (H []); [reflexivity | discriminate].
Defined.

(** ** The traversal visits every node once *)

Lemma refs_from_elem r cs i r' :
  Forall (λ c, ∀ r0 r1,
            r1 ∈ Store.refs_of c r0 ↔
            ∃ p, r1 = r0 ++ p ∧ is_Some (Store.deref c p)) cs →
  r' ∈ Store.refs_from Store.refs_of r cs i ↔
  ∃ k c p, cs !! k = Some c ∧ r' = r ++ (i + k) :: p
           ∧ is_Some (Store.deref c p).
Proof.
  intros IH. revert i. induction IH as [|c cs Hc _ IHcs]; intros i; simpl.
  - split; [by intros ?%elem_of_nil | by intros (k & c & p & ? & _)].
  - rewrite elem_of_app, Hc, IHcs. split.
    + intros [(p & -> & Hp)|(k & c' & p & Hk & -> & Hp)].
      * exists 0, c, p. rewrite Nat.add_0_r, <- app_assoc. done.
      * exists (S k), c', p. rewrite Nat.add_succ_r. done.
    + intros ([|k] & c' & p & Hk & -> & Hp); simpl in Hk.
      * injection Hk as <-. left. exists p.
        rewrite Nat.add_0_r, <- app_assoc. done.
      * right. exists k, c', p. rewrite Nat.add_succ_r. done.
Qed.

Lemma refs_from_NoDup r cs i :
  Forall (λ c, ∀ r0 r1,
            r1 ∈ Store.refs_of c r0 ↔
            ∃ p, r1 = r0 ++ p ∧ is_Some (Store.deref c p)) cs →
  Forall (λ c, ∀ r0, NoDup (Store.refs_of c r0)) cs →
  NoDup (Store.refs_from Store.refs_of r cs i).
Proof.
  intros Hel Hnd. revert i.
  induction Hnd as [|c cs Hc Hcs IH]; intros i; simpl; [constructor|].
  apply Forall_cons in Hel as [Helc Hel].
  apply NoDup_app. split; [apply Hc|]. split; [|by apply IH].
  intros r' (p & -> & _)%Helc (k & c' & p' & _ & Heq & _)%refs_from_elem;
    [|done].
  rewrite <- app_assoc in Heq. apply app_inv_head in Heq.
  injection Heq as Heq _. lia.
Qed.

Lemma refs_from_length r cs i :
  Forall (λ c, ∀ r0, length (Store.refs_of c r0) = length (iter c)) cs →
  length (Store.refs_from Store.refs_of r cs i) = length (flat_map iter cs).
Proof.
  intros H. revert i. induction H as [|c cs Hc _ IH]; intros i; simpl; [done|].
  by rewrite !length_app, Hc, IH.
Qed.

(** The loop of [process_paper_section] takes one turn per node of the
    section's subtree: the references it visits are pairwise distinct,
    they are exactly the nodes at or below the section, and there are as
    many of them as elements of [iter]. *)
Theorem traversal_visits_each_node_once (e : Element) (r : Store.ref) :
  NoDup (Store.refs_of e r)
  ∧ (∀ r', r' ∈ Store.refs_of e r ↔
           ∃ p, r' = r ++ p ∧ is_Some (Store.deref e p))
  ∧ length (Store.refs_of e r) = length (iter e).
Proof.
  revert r. induction e as [tg at_ tx tl cs IH] using Element_ind.
  assert (Forall (λ c, ∀ r0 r1,
            r1 ∈ Store.refs_of c r0 ↔
            ∃ p, r1 = r0 ++ p ∧ is_Some (Store.deref c p)) cs) as Hel.
  { eapply Forall_impl; [exact IH|]. intros c H r0. apply H. }
  assert (Forall (λ c, ∀ r0, NoDup (Store.refs_of c r0)) cs) as Hnd.
  { eapply Forall_impl; [exact IH|]. intros c H r0. apply H. }
  assert (Forall (λ c, ∀ r0, length (Store.refs_of c r0) = length (iter c)) cs)
    as Hlen.
  { eapply Forall_impl; [exact IH|]. intros c H r0. apply H. }
  intros r. simpl. split; [|split].
  - constructor; [|by apply refs_from_NoDup].
    intros (k & c & p & _ & Heq & _)%refs_from_elem; [|done].
    rewrite <- (app_nil_r r) in Heq at 1. by apply app_inv_head in Heq.
  - intros r'. rewrite elem_of_cons, refs_from_elem by done. split.
    + intros [->|(k & c & p & Hk & -> & Hp)].
      * exists []. by rewrite app_nil_r.
      * exists (k :: p). split; [done|]. simpl. by rewrite Hk.
    + intros ([|k p] & -> & Hp).
      * left. by rewrite app_nil_r.
      * right. simpl in Hp. destruct (cs !! k) as [c|] eqn:Hk.
        -- by exists k, c, p.
        -- by destruct Hp.
  - f_equal. by apply refs_from_length.
Qed.

(** ** A body without narrated sections *)

(** [main] has no guard for an empty text: when the body holds no section,
    or notes and figures only, the rewriting service is handed the empty
    string. *)
Theorem empty_body_sends_empty_text (tree t b : Element) :
  findall tree "{http://www.tei-c.org/ns/1.0}text" = [t] →
  findall t "{http://www.tei-c.org/ns/1.0}body" = [b] →
  Forall (λ s, tag s = "{http://www.tei-c.org/ns/1.0}note"
               ∨ tag s = "{http://www.tei-c.org/ns/1.0}figure")
    (children b) →
  main_contents tree = Ok EmptyString.
Proof.
  intros Ht Hb Hall. unfold main_contents, main_rough_text.
  rewrite Ht. simpl. rewrite Hb. simpl.
  by rewrite (assemble_pruned_only _ Hall).
Qed.

Lemma empty_body_sends_empty_text_witness :
  main_contents
    (tei "TEI" None None
       [tei "teiHeader" None None [];
        tei "text" None None [body_of [note_N]]]) = Ok EmptyString.
Proof.
  apply (empty_body_sends_empty_text _
           (tei "text" None None [body_of [note_N]]) (body_of [note_N]));
    [vm_compute; reflexivity | vm_compute; reflexivity |].
  simpl. constructor; [left; reflexivity | constructor].
Defined.
